(** * Ledger consistency of the bank API views (accounts/views.py)

    A shallow embedding of the Django REST views of [accounts/views.py]:
    [DepositView.post], [WithdrawView.post], [TransferView.post] and
    [TransactionHistoryView.get_queryset].

    Modelling choices.
    - Money is a [Decimal] with exact arithmetic in the source; it is a [Z]
      here, counted in the smallest unit of the currency.
    - The database has three tables: the users ([auth_user], keyed by the
      unique username), the bank accounts (one per user at most, so the owner
      is a key of the table) and the transaction log in insertion order.
    - A model instance ([request.user.bank_account]) is a copy of a row; the
      view changes the copy and [save()] writes the copy back over the row.
    - A view is a computation in a state-and-exception monad over the
      database.  Every ORM call commits on its own (autocommit), except in a
      [transaction.atomic()] block, which rolls back when its body raises.
    - The time stamps that [Transaction.objects.create] reads from the clock
      are inputs of the views. *)

From stdpp Require Import gmap strings list sorting.

Open Scope Z_scope.

(** ** Data model *)

Inductive TransactionType := DEPOSIT | WITHDRAWAL | TRANSFER_OUT | TRANSFER_IN.

#[global] Instance TransactionType_eq_dec : EqDecision TransactionType.
Proof. solve_decision. Defined.

(** A [BankAccount] instance: the row of the owner [account_user], and the
    value of its [balance] field in this copy. *)
Record BankAccount := mkBankAccount {
  account_user : string;
  balance : Z;
}.

(** A row of the transaction log.  [tx_account] is the foreign key to the
    bank account (its owner). *)
Record Transaction := mkTransaction {
  tx_account : string;
  transaction_type : TransactionType;
  tx_amount : Z;
  description : string;
  created_at : Z;
}.

#[global] Instance Transaction_eq_dec : EqDecision Transaction.
Proof. solve_decision. Defined.

Record Database := mkDatabase {
  auth_user : gset string;
  accounts_bankaccount : gmap string Z;
  accounts_transaction : list Transaction;
}.

(** ** Requests and responses *)

Record AmountData := mkAmountData { amount : Z }.

Record TransferData := mkTransferData {
  transfer_amount : Z;
  recipient_username : string;
}.

(** [request.user] is the authenticated caller, [request.data] the payload. *)
Record Request (D : Type) := mkRequest {
  user : string;
  data : D;
}.
Arguments mkRequest {D} _ _.
Arguments user {D} _.
Arguments data {D} _.

Inductive Body :=
  | Message (message : string) (new_balance : Z)
  | Error (error : string).

Record Response := mkResponse {
  body : Body;
  status : Z;
}.

Definition HTTP_200_OK : Z := 200.
Definition HTTP_400_BAD_REQUEST : Z := 400.
Definition HTTP_404_NOT_FOUND : Z := 404.

Inductive Exception :=
  | ValidationError
  | RelatedObjectDoesNotExist.

(** ** The monad of the views: database state and exceptions *)

Inductive Outcome (A : Type) :=
  | Return (a : A)
  | Raise (e : Exception).
Arguments Return {A} _.
Arguments Raise {A} _.

Definition M (A : Type) : Type := Database → Outcome A * Database.

Definition ret {A} (a : A) : M A := λ db, (Return a, db).

Definition raise {A} (e : Exception) : M A := λ db, (Raise e, db).

Definition bind {A B} (k : A → M B) (m : M A) : M B :=
  λ db, match m db with
        | (Return a, db') => k a db'
        | (Raise e, db') => (Raise e, db')
        end.

(** The notations [x ← m; k] and [m;; k] are those of these instances. *)
#[global] Instance M_ret : MRet M := @ret.
#[global] Instance M_bind : MBind M := @bind.

(** [with transaction.atomic(): body]: the writes of [body] are kept when it
    ends normally and undone when it raises. *)
Definition transaction_atomic {A} (body : M A) : M A :=
  λ db, match body db with
        | (Return a, db') => (Return a, db')
        | (Raise e, _) => (Raise e, db)
        end.

(** ** The ORM calls the views make *)

(** [user.bank_account]: the reverse side of the one-to-one relation; it
    reads the row and raises when the user has no bank account. *)
Definition bank_account (u : string) : M BankAccount :=
  λ db, match accounts_bankaccount db !! u with
        | Some b => (Return (mkBankAccount u b), db)
        | None => (Raise RelatedObjectDoesNotExist, db)
        end.

(** [account.save()]: writes the fields of the instance over its row. *)
Definition save (account : BankAccount) : M unit :=
  λ db, (Return (),
         mkDatabase (auth_user db)
                    (<[account_user account := balance account]>
                       (accounts_bankaccount db))
                    (accounts_transaction db)).

(** [Transaction.objects.create(...)]: appends a row stamped with the
    current time [now]. *)
Definition Transaction_objects_create (now : Z) (account : BankAccount)
    (ty : TransactionType) (amt : Z) (descr : string) : M unit :=
  λ db, (Return (),
         mkDatabase (auth_user db) (accounts_bankaccount db)
                    (accounts_transaction db ++
                       [mkTransaction (account_user account) ty amt descr now])).

(** [User.objects.get(username=...)] inside its [try]: [Some] user, or
    [None] where the source catches [User.DoesNotExist]. *)
Definition User_objects_get (username : string) : M (option string) :=
  λ db, (Return (if decide (username ∈ auth_user db) then Some username else None),
         db).

(** ** Serializers *)

(** Modelled from the spec: [accounts/serializers.py] is not part of the
    sources at hand.  The spec requires "Amount > 0 for every operation; zero
    or negative amounts are rejected before mutation", with a
    [ValidationError]; [is_valid(raise_exception=True)] raises it. *)
Definition amount_is_valid (a : Z) : bool := 0 <? a.

Definition DepositSerializer (d : AmountData) : M Z :=
  if amount_is_valid (amount d) then ret (amount d) else raise ValidationError.

Definition WithdrawSerializer (d : AmountData) : M Z :=
  if amount_is_valid (amount d) then ret (amount d) else raise ValidationError.

Definition TransferSerializer (d : TransferData) : M (Z * string) :=
  if amount_is_valid (transfer_amount d)
  then ret (transfer_amount d, recipient_username d)
  else raise ValidationError.

(** ** The views *)

Definition DepositView_post (now : Z) (request : Request AmountData) : M Response :=
  amount ← DepositSerializer (data request);
  account ← bank_account (user request);
  let account := mkBankAccount (account_user account) (balance account + amount) in
  save account;;
  Transaction_objects_create now account DEPOSIT amount "Deposit to account";;
  ret (mkResponse (Message "Deposit successful" (balance account)) HTTP_200_OK).

Definition WithdrawView_post (now : Z) (request : Request AmountData) : M Response :=
  amount ← WithdrawSerializer (data request);
  account ← bank_account (user request);
  if decide (balance account < amount) then
    ret (mkResponse (Error "Insuficient funds") HTTP_400_BAD_REQUEST)
  else
    let account := mkBankAccount (account_user account) (balance account - amount) in
    save account;;
    Transaction_objects_create now account WITHDRAWAL amount "Withdrawal from account";;
    ret (mkResponse (Message "Withdrawal successful" (balance account)) HTTP_200_OK).

(** [now_out] and [now_in] are the clock readings of the two [create] calls. *)
Definition TransferView_post (now_out now_in : Z) (request : Request TransferData)
    : M Response :=
  '(amount, recipient_username) ← TransferSerializer (data request);
  sender_account ← bank_account (user request);
  if decide (account_user sender_account = recipient_username) then
    ret (mkResponse (Error "Cannot transfer to yourself") HTTP_400_BAD_REQUEST)
  else
    found ← User_objects_get recipient_username;
    match found with
    | None => ret (mkResponse (Error "Recipient not found") HTTP_404_NOT_FOUND)
    | Some recipient =>
      if decide (balance sender_account < amount) then
        ret (mkResponse (Error "Insufficient funds") HTTP_400_BAD_REQUEST)
      else
        recipient_account ← bank_account recipient;
        sender_account ←
          transaction_atomic (
            let sender_account :=
              mkBankAccount (account_user sender_account)
                            (balance sender_account - amount) in
            save sender_account;;
            let recipient_account :=
              mkBankAccount (account_user recipient_account)
                            (balance recipient_account + amount) in
            save recipient_account;;
            Transaction_objects_create now_out sender_account TRANSFER_OUT amount
              ("Transfer to " +:+ recipient_username);;
            Transaction_objects_create now_in recipient_account TRANSFER_IN amount
              ("Transfer from " +:+ user request);;
            ret sender_account);
        ret (mkResponse (Message "Transfer successful" (balance sender_account))
                        HTTP_200_OK)
    end.

(** [Transaction.objects.filter(account=...)]: a read of the log. *)
Definition Transaction_objects_filter (account : BankAccount)
    : M (list Transaction) :=
  λ db, (Return (filter (λ t, tx_account t = account_user account)
                        (accounts_transaction db)), db).

(** The order of ["-created_at"]: the later record first. *)
Definition created_at_desc (t1 t2 : Transaction) : Prop :=
  created_at t2 ≤ created_at t1.

#[global] Instance created_at_desc_dec t1 t2 : Decision (created_at_desc t1 t2).
Proof. unfold created_at_desc. apply _. Defined.

Definition order_by_created_at_desc (qs : list Transaction)
    : M (list Transaction) :=
  ret (merge_sort created_at_desc qs).

Definition TransactionHistoryView_get_queryset (request : Request unit)
    : M (list Transaction) :=
  account ← bank_account (user request);
  Transaction_objects_filter account ≫= order_by_created_at_desc.

(** ** Sequences of operations *)

Inductive Operation :=
  | Deposit (now : Z) (request : Request AmountData)
  | Withdraw (now : Z) (request : Request AmountData)
  | Transfer (now_out now_in : Z) (request : Request TransferData).

Definition operation_amount (op : Operation) : Z :=
  match op with
  | Deposit _ request | Withdraw _ request => amount (data request)
  | Transfer _ _ request => transfer_amount (data request)
  end.

Definition perform (op : Operation) : M Response :=
  match op with
  | Deposit now request => DepositView_post now request
  | Withdraw now request => WithdrawView_post now request
  | Transfer now_out now_in request => TransferView_post now_out now_in request
  end.

(** The database after each operation of the sequence, one after the other. *)
Fixpoint states_after (ops : list Operation) (db : Database) : list Database :=
  match ops with
  | [] => []
  | op :: ops => let db' := (perform op db).2 in db' :: states_after ops db'
  end.

Definition balances_nonneg (db : Database) : Prop :=
  map_Forall (λ _ b, 0 ≤ b) (accounts_bankaccount db).

(** The balance of an account, as [AccountDetailView] would show it. *)
Definition balance_of (db : Database) (u : string) : option Z :=
  accounts_bankaccount db !! u.

(** The sum of all balances of the ledger. *)
Definition total_balance (db : Database) : Z :=
  map_fold (λ _ b acc, b + acc) 0 (accounts_bankaccount db).

(** ** The database after a successful operation *)

Definition deposited (now : Z) (u : string) (a b : Z) (db : Database) : Database :=
  mkDatabase (auth_user db) (<[u := b + a]> (accounts_bankaccount db))
    (accounts_transaction db ++
       [mkTransaction u DEPOSIT a "Deposit to account" now]).

Definition withdrawn (now : Z) (u : string) (a b : Z) (db : Database) : Database :=
  mkDatabase (auth_user db) (<[u := b - a]> (accounts_bankaccount db))
    (accounts_transaction db ++
       [mkTransaction u WITHDRAWAL a "Withdrawal from account" now]).

Definition transferred (now_out now_in : Z) (u r : string) (a sb rb : Z)
    (db : Database) : Database :=
  mkDatabase (auth_user db)
    (<[r := rb + a]> (<[u := sb - a]> (accounts_bankaccount db)))
    (accounts_transaction db ++
       [mkTransaction u TRANSFER_OUT a ("Transfer to " +:+ r) now_out;
        mkTransaction r TRANSFER_IN a ("Transfer from " +:+ u) now_in]).

(** ** Example ledgers *)

Definition example_db : Database :=
  mkDatabase {["alice"; "bob"; "carol"]}
    (<["alice" := 10000]> (<["bob" := 0]> ∅)) [].

Definition example_ops : list Operation :=
  [Deposit 1 (mkRequest "alice" (mkAmountData 5000));
   Withdraw 2 (mkRequest "alice" (mkAmountData 20000));
   Transfer 3 4 (mkRequest "alice" (mkTransferData 10000 "bob"))].

(** ** Notions for the transaction history *)

(** The records of the account of [u] in the log, in insertion order. *)
Definition records_of (u : string) (db : Database) : list Transaction :=
  filter (λ t, tx_account t = u) (accounts_transaction db).

(** The log was stamped by a clock that moved between any two insertions. *)
Definition chronological (log : list Transaction) : Prop :=
  StronglySorted (λ t1 t2, created_at t1 < created_at t2) log.

Definition example_history_db : Database :=
  mkDatabase {["alice"; "bob"]} (<["alice" := 4900]> (<["bob" := 10000]> ∅))
    [mkTransaction "alice" DEPOSIT 5000 "Deposit to account" 1;
     mkTransaction "alice" TRANSFER_OUT 10000 "Transfer to bob" 2;
     mkTransaction "bob" TRANSFER_IN 10000 "Transfer from alice" 3;
     mkTransaction "alice" WITHDRAWAL 100 "Withdrawal from account" 4].

(** ** Concurrent requests

    The server runs one thread per request.  A thread is at one of the ORM
    calls of its view, with its local variables; a step runs that call on
    the shared database, with the Python code that follows it up to the next
    call.  [DepositView.post] and [WithdrawView.post] open no transaction,
    so each of their calls commits on its own; the [transaction.atomic()]
    block of [TransferView.post] reads nothing and commits as one step. *)

Inductive Thread :=
  | Start (op : Operation)
  | DepositSave (now : Z) (account : BankAccount) (amount : Z)
  | DepositCreate (now : Z) (account : BankAccount) (amount : Z)
  | WithdrawSave (now : Z) (account : BankAccount) (amount : Z)
  | WithdrawCreate (now : Z) (account : BankAccount) (amount : Z)
  | TransferGetUser (now_out now_in : Z) (caller : string)
      (sender_account : BankAccount) (amount : Z) (recipient_username : string)
  | TransferRecipientAccount (now_out now_in : Z) (caller : string)
      (sender_account : BankAccount) (amount : Z) (recipient_username : string)
      (recipient : string)
  | TransferAtomic (now_out now_in : Z) (caller : string)
      (sender_account recipient_account : BankAccount) (amount : Z)
      (recipient_username : string)
  | Done (out : Outcome Response).

(** A step that raises ends the request with the exception. *)
Definition finish (m : M Thread) (db : Database) : Thread * Database :=
  match m db with
  | (Return t, db') => (t, db')
  | (Raise e, db') => (Done (Raise e), db')
  end.

Definition step (t : Thread) : Database → Thread * Database :=
  match t with
  | Start (Deposit now request) =>
      finish (
        amount ← DepositSerializer (data request);
        account ← bank_account (user request);
        ret (DepositSave now
               (mkBankAccount (account_user account) (balance account + amount))
               amount))
  | DepositSave now account amount =>
      finish (save account;; ret (DepositCreate now account amount))
  | DepositCreate now account amount =>
      finish (
        Transaction_objects_create now account DEPOSIT amount "Deposit to account";;
        ret (Done (Return (mkResponse (Message "Deposit successful" (balance account))
                                      HTTP_200_OK))))
  | Start (Withdraw now request) =>
      finish (
        amount ← WithdrawSerializer (data request);
        account ← bank_account (user request);
        if decide (balance account < amount) then
          ret (Done (Return (mkResponse (Error "Insuficient funds")
                                        HTTP_400_BAD_REQUEST)))
        else
          ret (WithdrawSave now
                 (mkBankAccount (account_user account) (balance account - amount))
                 amount))
  | WithdrawSave now account amount =>
      finish (save account;; ret (WithdrawCreate now account amount))
  | WithdrawCreate now account amount =>
      finish (
        Transaction_objects_create now account WITHDRAWAL amount
          "Withdrawal from account";;
        ret (Done (Return (mkResponse
                             (Message "Withdrawal successful" (balance account))
                             HTTP_200_OK))))
  | Start (Transfer now_out now_in request) =>
      finish (
        '(amount, recipient_username) ← TransferSerializer (data request);
        sender_account ← bank_account (user request);
        if decide (account_user sender_account = recipient_username) then
          ret (Done (Return (mkResponse (Error "Cannot transfer to yourself")
                                        HTTP_400_BAD_REQUEST)))
        else
          ret (TransferGetUser now_out now_in (user request) sender_account amount
                 recipient_username))
  | TransferGetUser now_out now_in caller sender_account amount recipient_username =>
      finish (
        found ← User_objects_get recipient_username;
        match found with
        | None => ret (Done (Return (mkResponse (Error "Recipient not found")
                                                HTTP_404_NOT_FOUND)))
        | Some recipient =>
          if decide (balance sender_account < amount) then
            ret (Done (Return (mkResponse (Error "Insufficient funds")
                                          HTTP_400_BAD_REQUEST)))
          else
            ret (TransferRecipientAccount now_out now_in caller sender_account
                   amount recipient_username recipient)
        end)
  | TransferRecipientAccount now_out now_in caller sender_account amount
      recipient_username recipient =>
      finish (
        recipient_account ← bank_account recipient;
        ret (TransferAtomic now_out now_in caller sender_account recipient_account
               amount recipient_username))
  | TransferAtomic now_out now_in caller sender_account recipient_account amount
      recipient_username =>
      finish (
        sender_account ←
          transaction_atomic (
            let sender_account :=
              mkBankAccount (account_user sender_account)
                            (balance sender_account - amount) in
            save sender_account;;
            let recipient_account :=
              mkBankAccount (account_user recipient_account)
                            (balance recipient_account + amount) in
            save recipient_account;;
            Transaction_objects_create now_out sender_account TRANSFER_OUT amount
              ("Transfer to " +:+ recipient_username);;
            Transaction_objects_create now_in recipient_account TRANSFER_IN amount
              ("Transfer from " +:+ caller);;
            ret sender_account);
        ret (Done (Return (mkResponse
                             (Message "Transfer successful" (balance sender_account))
                             HTTP_200_OK))))
  | Done out => λ db, (Done out, db)
  end.

(** A request running alone, for [n] steps. *)
Fixpoint run_alone (n : nat) (t : Thread) (db : Database) : Thread * Database :=
  match n with
  | O => (t, db)
  | S n => let '(t', db') := step t db in run_alone n t' db'
  end.

Record Config := mkConfig {
  database : Database;
  threads : list Thread;
}.

Definition initial (db : Database) (ops : list Operation) : Config :=
  mkConfig db (Start <$> ops).

(** The scheduler lets thread [i] make its next step. *)
Definition schedule_thread (cfg : Config) (i : nat) : Config :=
  match threads cfg !! i with
  | Some t =>
      let '(t', db') := step t (database cfg) in
      mkConfig db' (<[i := t']> (threads cfg))
  | None => cfg
  end.

(** A schedule is the sequence of the threads that step. *)
Definition run (schedule : list nat) (cfg : Config) : Config :=
  foldl schedule_thread cfg schedule.

(** What a thread has established about its local variables. *)
Definition thread_ok (t : Thread) : Prop :=
  match t with
  | Start op => 0 < operation_amount op
  | DepositSave _ account _ | DepositCreate _ account _
  | WithdrawSave _ account _ | WithdrawCreate _ account _ => 0 ≤ balance account
  | TransferGetUser _ _ _ sender_account amount _ =>
      0 < amount ∧ 0 ≤ balance sender_account
  | TransferRecipientAccount _ _ _ sender_account amount _ _ =>
      0 < amount ∧ amount ≤ balance sender_account
  | TransferAtomic _ _ _ sender_account recipient_account amount _ =>
      0 < amount ∧ amount ≤ balance sender_account ∧ 0 ≤ balance recipient_account
  | Done _ => True
  end.

(** No gap between the check and the write: whenever a withdrawal is about
    to write its debit, the stored balance still covers the amount. *)
Definition check_holds_at_write (cfg : Config) : Prop :=
  ∀ i now account amount,
    threads cfg !! i = Some (WithdrawSave now account amount) →
    ∃ b, accounts_bankaccount (database cfg) !! account_user account = Some b ∧
         amount ≤ b.

Definition config_ok (cfg : Config) : Prop :=
  balances_nonneg (database cfg) ∧ Forall thread_ok (threads cfg).

(** Two withdrawals of the whole balance, by the same caller, at once. *)
Definition race_db : Database :=
  mkDatabase {["alice"]} (<["alice" := 100]> ∅) [].

Definition race_ops : list Operation :=
  [Withdraw 1 (mkRequest "alice" (mkAmountData 100));
   Withdraw 2 (mkRequest "alice" (mkAmountData 100))].

Definition race_schedule : list nat := [0; 1; 0; 1; 0; 1]%nat.

(** ** The account detail view and notions for the ledger as a whole *)

(** [AccountDetailView.get_object]: the caller's bank account. *)
Definition AccountDetailView_get_object (request : Request unit) : M BankAccount :=
  bank_account (user request).

(** The authenticated user of an operation, and the users it names. *)
Definition caller (op : Operation) : string :=
  match op with
  | Deposit _ request | Withdraw _ request => user request
  | Transfer _ _ request => user request
  end.

Definition parties (op : Operation) : list string :=
  match op with
  | Deposit _ request | Withdraw _ request => [user request]
  | Transfer _ _ request => [user request; recipient_username (data request)]
  end.

(** The view answered with its success message (status 200). *)
Definition is_success (out : Outcome Response) : bool :=
  match out with
  | Return (mkResponse (Message _ _) _) => true
  | _ => false
  end.

(** The database after all the operations of a sequence. *)
Definition perform_all (ops : list Operation) (db : Database) : Database :=
  foldl (λ db op, (perform op db).2) db ops.

(** What a record says of the balance of its account: a credit or a debit. *)
Definition signed_amount (t : Transaction) : Z :=
  match transaction_type t with
  | DEPOSIT | TRANSFER_IN => tx_amount t
  | WITHDRAWAL | TRANSFER_OUT => - tx_amount t
  end.

Definition net (log : list Transaction) : Z :=
  foldr (λ t acc, signed_amount t + acc) 0 log.

(** The balance of an account less the net of its records. *)
Definition ledger_offset (db : Database) (u : string) : option Z :=
  (λ b, b - net (records_of u db)) <$> balance_of db u.

(** The records that one successful request adds to the log. *)
Inductive entry : list Transaction → Prop :=
  | entry_deposit u a now :
      entry [mkTransaction u DEPOSIT a "Deposit to account" now]
  | entry_withdrawal u a now :
      entry [mkTransaction u WITHDRAWAL a "Withdrawal from account" now]
  | entry_transfer u r a now_out now_in :
      u ≠ r →
      entry [mkTransaction u TRANSFER_OUT a ("Transfer to " +:+ r) now_out;
             mkTransaction r TRANSFER_IN a ("Transfer from " +:+ u) now_in].

(** The accounts that a thread holds copies of are rows of the table [D]. *)
Definition thread_known (D : gset string) (t : Thread) : Prop :=
  match t with
  | DepositSave _ account _ | DepositCreate _ account _
  | WithdrawSave _ account _ | WithdrawCreate _ account _ =>
      account_user account ∈ D
  | TransferGetUser _ _ _ sender_account _ _
  | TransferRecipientAccount _ _ _ sender_account _ _ _ =>
      account_user sender_account ∈ D
  | TransferAtomic _ _ _ sender_account recipient_account _ _ =>
      account_user sender_account ∈ D ∧ account_user recipient_account ∈ D
  | Start _ | Done _ => True
  end.

(** The local variables of a transfer name its two parties consistently. *)
Definition thread_coherent (t : Thread) : Prop :=
  match t with
  | TransferGetUser _ _ caller sender_account _ recipient_username =>
      caller = account_user sender_account ∧ caller ≠ recipient_username
  | TransferRecipientAccount _ _ caller sender_account _ recipient_username
      recipient =>
      caller = account_user sender_account ∧ caller ≠ recipient_username ∧
      recipient = recipient_username
  | TransferAtomic _ _ caller sender_account recipient_account _
      recipient_username =>
      caller = account_user sender_account ∧ caller ≠ recipient_username ∧
      account_user recipient_account = recipient_username
  | _ => True
  end.

(** The log [log'] is [log] followed by the records of whole requests. *)
Definition grown_by_entries (log log' : list Transaction) : Prop :=
  ∃ units, Forall entry units ∧ log' = log ++ concat units.

(** The clock readings of an operation, in the order it takes them, and
    those of a sequence of operations. *)
Definition stamps (op : Operation) : list Z :=
  match op with
  | Deposit now _ | Withdraw now _ => [now]
  | Transfer now_out now_in _ => [now_out; now_in]
  end.

Fixpoint all_stamps (ops : list Operation) : list Z :=
  match ops with
  | [] => []
  | op :: ops => stamps op ++ all_stamps ops
  end.

(** The log is chronological, and the clock readings [ts] to come increase
    and are later than every record of the log. *)
Definition clock_ahead (log : list Transaction) (ts : list Z) : Prop :=
  chronological log ∧ StronglySorted Z.lt ts ∧
  ∀ t s, t ∈ log → s ∈ ts → created_at t < s.

(** * Properties of the views *)

(** ** Equations of the views *)

Ltac unfold_view :=
  unfold DepositView_post, WithdrawView_post, TransferView_post,
    TransactionHistoryView_get_queryset, DepositSerializer, WithdrawSerializer,
    TransferSerializer, amount_is_valid, transaction_atomic, bank_account, save,
    Transaction_objects_create, Transaction_objects_filter,
    order_by_created_at_desc, User_objects_get,
    mbind, M_bind, bind, mret, M_ret, ret, raise;
  simpl.

Ltac valid_amount H :=
  match type of H with
  | 0 < ?a => replace (0 <? a) with true by (symmetry; apply Z.ltb_lt; exact H)
  | ?a ≤ 0 => replace (0 <? a) with false by (symmetry; apply Z.ltb_ge; exact H)
  end.

Lemma DepositView_post_eq now u a b db :
  0 < a → accounts_bankaccount db !! u = Some b →
  DepositView_post now (mkRequest u (mkAmountData a)) db =
    (Return (mkResponse (Message "Deposit successful" (b + a)) HTTP_200_OK),
     deposited now u a b db).
Proof. intros Ha Hu. unfold_view. valid_amount Ha. by rewrite Hu. Qed.

Lemma WithdrawView_post_eq now u a b db :
  0 < a → accounts_bankaccount db !! u = Some b →
  WithdrawView_post now (mkRequest u (mkAmountData a)) db =
    if decide (b < a)
    then (Return (mkResponse (Error "Insuficient funds") HTTP_400_BAD_REQUEST), db)
    else (Return (mkResponse (Message "Withdrawal successful" (b - a)) HTTP_200_OK),
          withdrawn now u a b db).
Proof.
  intros Ha Hu. unfold_view. valid_amount Ha. rewrite Hu. simpl.
  by case_decide.
Qed.

Lemma TransferView_post_eq now_out now_in u r a sb db :
  0 < a → accounts_bankaccount db !! u = Some sb →
  TransferView_post now_out now_in (mkRequest u (mkTransferData a r)) db =
    if decide (u = r)
    then (Return (mkResponse (Error "Cannot transfer to yourself")
                             HTTP_400_BAD_REQUEST), db)
    else if decide (r ∈ auth_user db)
    then if decide (sb < a)
         then (Return (mkResponse (Error "Insufficient funds")
                                  HTTP_400_BAD_REQUEST), db)
         else match accounts_bankaccount db !! r with
              | Some rb =>
                  (Return (mkResponse (Message "Transfer successful" (sb - a))
                                      HTTP_200_OK),
                   transferred now_out now_in u r a sb rb db)
              | None => (Raise RelatedObjectDoesNotExist, db)
              end
    else (Return (mkResponse (Error "Recipient not found") HTTP_404_NOT_FOUND), db).
Proof.
  intros Ha Hu. unfold_view. valid_amount Ha. rewrite Hu. simpl.
  repeat case_decide; try done.
  destruct (accounts_bankaccount db !! r); simpl; [|done].
  unfold transferred. by rewrite <- app_assoc.
Qed.

(** A request that is rejected, or whose caller has no account, writes
    nothing. *)
Lemma invalid_amount_unchanged op db :
  operation_amount op ≤ 0 → perform op db = (Raise ValidationError, db).
Proof.
  destruct op as [now [u [a]]|now [u [a]]|now1 now2 [u [a r]]]; simpl; intros Ha;
    unfold_view; by valid_amount Ha.
Qed.

Lemma no_account_unchanged op db :
  0 < operation_amount op →
  accounts_bankaccount db !!
    (match op with
     | Deposit _ rq | Withdraw _ rq => user rq
     | Transfer _ _ rq => user rq
     end) = None →
  perform op db = (Raise RelatedObjectDoesNotExist, db).
Proof.
  destruct op as [now [u [a]]|now [u [a]]|now1 now2 [u [a r]]]; simpl; intros Ha Hu;
    unfold_view; valid_amount Ha; by rewrite Hu.
Qed.

Lemma perform_balances_nonneg op db :
  0 < operation_amount op → balances_nonneg db → balances_nonneg (perform op db).2.
Proof.
  intros Ha Hdb.
  destruct op as [now [u [a]]|now [u [a]]|now1 now2 [u [a r]]]; simpl in *.
  - destruct (accounts_bankaccount db !! u) as [b|] eqn:Hu.
    + rewrite (DepositView_post_eq _ _ _ b) by done.
      apply map_Forall_insert_2; [|done]. apply Hdb in Hu. simpl in Hu. lia.
    + by rewrite (no_account_unchanged (Deposit now (mkRequest u (mkAmountData a)))
                    db Ha Hu : DepositView_post _ _ _ = _).
  - destruct (accounts_bankaccount db !! u) as [b|] eqn:Hu.
    + rewrite (WithdrawView_post_eq _ _ _ b) by done.
      case_decide; [done|]. apply map_Forall_insert_2; [lia|done].
    + by rewrite (no_account_unchanged (Withdraw now (mkRequest u (mkAmountData a)))
                    db Ha Hu : WithdrawView_post _ _ _ = _).
  - destruct (accounts_bankaccount db !! u) as [sb|] eqn:Hu.
    + rewrite (TransferView_post_eq _ _ _ _ _ sb) by done.
      repeat case_decide; try done.
      destruct (accounts_bankaccount db !! r) as [rb|] eqn:Hr; [|done].
      apply map_Forall_insert_2.
      * apply Hdb in Hr. simpl in Hr. lia.
      * apply map_Forall_insert_2; [lia|done].
    + by rewrite (no_account_unchanged
                    (Transfer now1 now2 (mkRequest u (mkTransferData a r))) db Ha Hu
                  : TransferView_post _ _ _ _ = _).
Qed.

(** ** Balances, withdrawals, transfers and deposits *)

(** C1. Non-negative balance invariant: from a database in which every
    balance is at least 0, and for every sequence of deposits, withdrawals and
    transfers whose amounts are positive, every balance is at least 0 in the
    database reached after each operation of the sequence. *)
Theorem balance_nonneg_invariant (ops : list Operation) (db : Database) :
  balances_nonneg db →
  Forall (λ op, 0 < operation_amount op) ops →
  Forall balances_nonneg (states_after ops db).
Proof.
  intros Hdb Hops. revert db Hdb.
  induction Hops as [|op ops Hop _ IH]; intros db Hdb; simpl.
  - constructor.
  - pose proof (perform_balances_nonneg op db Hop Hdb) as Hdb'.
    constructor; [exact Hdb'|]. by apply IH.
Qed.

Lemma example_db_nonneg : balances_nonneg example_db.
Proof.
  unfold balances_nonneg, example_db. simpl.
  repeat (apply map_Forall_insert_2; [lia|]). apply map_Forall_empty.
Defined.

Lemma balance_nonneg_invariant_witness :
  balances_nonneg example_db ∧
  Forall (λ op, 0 < operation_amount op) example_ops ∧
  Forall balances_nonneg (states_after example_ops example_db).
Proof.
  assert (Forall (λ op, 0 < operation_amount op) example_ops) as Hops.
  { unfold example_ops. repeat constructor. }
  split; [exact example_db_nonneg|]. split; [exact Hops|].
  exact (balance_nonneg_invariant example_ops example_db example_db_nonneg Hops).
Defined.

(** C2. Withdraw: for a request of a positive amount [a] on an account of
    balance [b], the answer is the insufficient-funds error (status 400)
    exactly when [b < a], and then the database is unchanged (same balances,
    no record); otherwise the balance becomes [b - a], the other accounts are
    untouched, exactly one WITHDRAWAL record of amount [a] is appended to the
    log, and the new balance is returned. *)
Theorem withdraw_correct (now : Z) (u : string) (a b : Z) (db : Database) :
  0 < a → balance_of db u = Some b →
  let res := WithdrawView_post now (mkRequest u (mkAmountData a)) db in
  let insufficient :=
    Return (mkResponse (Error "Insuficient funds") HTTP_400_BAD_REQUEST) in
  (b < a → res = (insufficient, db)) ∧
  (a ≤ b →
     res.1 = Return (mkResponse (Message "Withdrawal successful" (b - a))
                                HTTP_200_OK) ∧
     balance_of res.2 u = Some (b - a) ∧
     (∀ v, v ≠ u → balance_of res.2 v = balance_of db v) ∧
     auth_user res.2 = auth_user db ∧
     accounts_transaction res.2 =
       accounts_transaction db ++
         [mkTransaction u WITHDRAWAL a "Withdrawal from account" now]) ∧
  (res.1 = insufficient ↔ b < a).
Proof.
  unfold balance_of. intros Ha Hu. cbv zeta.
  rewrite (WithdrawView_post_eq _ _ _ b) by done.
  case_decide as Hlt; simpl.
  - split_and!; [done|lia|done].
  - split_and!; [lia| |split; [done|lia]].
    intros _. split_and!; try done.
    + apply lookup_insert_eq.
    + intros v Hv. by apply lookup_insert_ne.
Qed.

Lemma withdraw_correct_witness :
  0 < 20000 ∧ balance_of example_db "alice" = Some 10000 ∧
  WithdrawView_post 2 (mkRequest "alice" (mkAmountData 20000)) example_db =
    (Return (mkResponse (Error "Insuficient funds") HTTP_400_BAD_REQUEST),
     example_db).
Proof.
  assert (0 < 20000) as Ha by lia.
  assert (balance_of example_db "alice" = Some 10000) as Hb by reflexivity.
  split; [exact Ha|]. split; [exact Hb|].
  apply (withdraw_correct 2 "alice" 20000 10000 example_db Ha Hb). lia.
Defined.

Lemma total_balance_insert (m : gmap string Z) u b b' :
  m !! u = Some b →
  map_fold (λ _ b acc, b + acc) 0 (<[u := b']> m) =
  map_fold (λ _ b acc, b + acc) 0 m - b + b'.
Proof.
  intros Hu.
  rewrite <- (insert_delete_id m u b) at 2 by done.
  rewrite <- (insert_delete_eq m u b').
  rewrite !map_fold_insert_L; try (by apply lookup_delete_eq); [lia| |];
    intros; lia.
Qed.

(** A block under [transaction.atomic()] is all or nothing. *)
Lemma transaction_atomic_rollback {A} (body : M A) db e db' :
  transaction_atomic body db = (Raise e, db') → db' = db.
Proof.
  unfold transaction_atomic. destruct (body db) as [[x|e'] db'']; congruence.
Qed.

(** C3. Transfer conservation and double entry: a transfer of a positive
    amount [a] from a sender of balance [sb], with [a ≤ sb], to a distinct
    existing recipient of balance [rb] succeeds; the sender has [sb - a]
    and the recipient [rb + a] afterwards, so their sum and the sum of all
    balances are unchanged and no other account is touched; exactly two
    records are appended, TRANSFER_OUT on the sender and TRANSFER_IN on the
    recipient, both of amount [a]; the sender's new balance is returned.
    The two writes and the two records are the one step of the
    [transaction.atomic()] block: the request writes nothing before it, and
    that step alone takes the database to its final state. *)
Theorem transfer_conservation (now_out now_in : Z) (u r : string) (a sb rb : Z)
    (db : Database) :
  0 < a → u ≠ r → r ∈ auth_user db →
  balance_of db u = Some sb → balance_of db r = Some rb → a ≤ sb →
  let res := TransferView_post now_out now_in (mkRequest u (mkTransferData a r)) db in
  res.1 = Return (mkResponse (Message "Transfer successful" (sb - a)) HTTP_200_OK) ∧
  (∃ sb' rb',
     balance_of res.2 u = Some sb' ∧ balance_of res.2 r = Some rb' ∧
     sb' = sb - a ∧ rb' = rb + a ∧ sb' + rb' = sb + rb) ∧
  (∀ v, v ≠ u → v ≠ r → balance_of res.2 v = balance_of db v) ∧
  total_balance res.2 = total_balance db ∧
  accounts_transaction res.2 =
    accounts_transaction db ++
      [mkTransaction u TRANSFER_OUT a ("Transfer to " +:+ r) now_out;
       mkTransaction r TRANSFER_IN a ("Transfer from " +:+ u) now_in] ∧
  let at_block :=
    TransferAtomic now_out now_in u (mkBankAccount u sb) (mkBankAccount r rb) a r in
  run_alone 3 (Start (Transfer now_out now_in (mkRequest u (mkTransferData a r)))) db
    = (at_block, db) ∧
  step at_block db = (Done res.1, res.2).
Proof.
  unfold balance_of, total_balance. intros Ha Hne Hr Hu Hrb Hle. cbv zeta.
  rewrite (TransferView_post_eq _ _ _ _ _ sb) by done.
  rewrite decide_False by done. rewrite decide_True by done.
  rewrite decide_False by lia. rewrite Hrb. simpl.
  split_and!; try done.
  - exists (sb - a), (rb + a). split_and!; try lia.
    + rewrite lookup_insert_ne by done. apply lookup_insert_eq.
    + apply lookup_insert_eq.
  - intros v Hvu Hvr. by rewrite !lookup_insert_ne.
  - rewrite (total_balance_insert _ r rb) by (by rewrite lookup_insert_ne).
    rewrite (total_balance_insert _ u sb) by done. lia.
  - simpl. unfold finish. unfold_view. valid_amount Ha. rewrite Hu. simpl.
    case_decide; [done|]. simpl. unfold finish. unfold_view.
    case_decide; [|done]. case_decide; [lia|]. simpl.
    unfold finish. unfold_view. by rewrite Hrb.
  - unfold finish, transferred. unfold_view. by rewrite <- app_assoc.
Qed.

Lemma transfer_conservation_witness :
  total_balance
    (TransferView_post 3 4 (mkRequest "alice" (mkTransferData 10000 "bob"))
       example_db).2 = total_balance example_db.
Proof.
  assert (0 < 10000) as Ha by lia.
  assert ("alice" ≠ "bob") as Hne by discriminate.
  assert ("bob" ∈ auth_user example_db) as Hr by (by vm_compute).
  assert (balance_of example_db "alice" = Some 10000) as Hu by reflexivity.
  assert (balance_of example_db "bob" = Some 0) as Hb by reflexivity.
  assert (10000 ≤ 10000) as Hle by lia.
  exact (proj1 (proj2 (proj2 (proj2
    (transfer_conservation 3 4 "alice" "bob" 10000 10000 0 example_db
       Ha Hne Hr Hu Hb Hle))))).
Defined.

(** C4. Deposit: a deposit of a positive amount [a] on an account of balance
    [b] always succeeds; the balance becomes [b + a], the other accounts
    are untouched, exactly one DEPOSIT record of amount [a] is appended, and
    the new balance is returned. *)
Theorem deposit_correct (now : Z) (u : string) (a b : Z) (db : Database) :
  0 < a → balance_of db u = Some b →
  let res := DepositView_post now (mkRequest u (mkAmountData a)) db in
  res.1 = Return (mkResponse (Message "Deposit successful" (b + a)) HTTP_200_OK) ∧
  balance_of res.2 u = Some (b + a) ∧
  (∀ v, v ≠ u → balance_of res.2 v = balance_of db v) ∧
  auth_user res.2 = auth_user db ∧
  accounts_transaction res.2 =
    accounts_transaction db ++ [mkTransaction u DEPOSIT a "Deposit to account" now].
Proof.
  unfold balance_of. intros Ha Hu. cbv zeta.
  rewrite (DepositView_post_eq _ _ _ b) by done. simpl.
  split_and!; try done.
  - apply lookup_insert_eq.
  - intros v Hv. by apply lookup_insert_ne.
Qed.

Lemma deposit_correct_witness :
  0 < 5000 ∧ balance_of example_db "alice" = Some 10000 ∧
  balance_of
    (DepositView_post 1 (mkRequest "alice" (mkAmountData 5000)) example_db).2
    "alice" = Some 15000.
Proof.
  assert (0 < 5000) as Ha by lia.
  assert (balance_of example_db "alice" = Some 10000) as Hb by reflexivity.
  split; [exact Ha|]. split; [exact Hb|].
  exact (proj1 (proj2 (deposit_correct 1 "alice" 5000 10000 example_db Ha Hb))).
Defined.

(** C5. Transfer error precedence: for a transfer of a positive amount by a
    caller who has an account, (1) a recipient equal to the sender yields the
    self-transfer error, whether or not the funds suffice (the sender is a
    user, and no look-up is made); (2) otherwise a recipient that is not a
    user yields the recipient-not-found error whatever the sender's balance;
    (3) otherwise a balance below the amount yields the insufficient-funds
    error.  In each of these failures the database is unchanged: no record is
    written and no balance changes. *)
Theorem transfer_error_precedence (now_out now_in : Z) (u r : string) (a sb : Z)
    (db : Database) :
  0 < a → balance_of db u = Some sb →
  let res := TransferView_post now_out now_in (mkRequest u (mkTransferData a r)) db in
  (u = r →
     res = (Return (mkResponse (Error "Cannot transfer to yourself")
                               HTTP_400_BAD_REQUEST), db)) ∧
  (u ≠ r → r ∉ auth_user db →
     res = (Return (mkResponse (Error "Recipient not found") HTTP_404_NOT_FOUND),
            db)) ∧
  (u ≠ r → r ∈ auth_user db → sb < a →
     res = (Return (mkResponse (Error "Insufficient funds") HTTP_400_BAD_REQUEST),
            db)).
Proof.
  unfold balance_of. intros Ha Hu. cbv zeta.
  rewrite (TransferView_post_eq _ _ _ _ _ sb) by done.
  split_and!.
  - intros Heq. by rewrite decide_True.
  - intros Hne Hr. rewrite decide_False by done. by rewrite decide_False.
  - intros Hne Hr Hlt. rewrite decide_False by done. rewrite decide_True by done.
    by rewrite decide_True.
Qed.

Lemma transfer_error_precedence_witness :
  0 < 20000 ∧ balance_of example_db "alice" = Some 10000 ∧
  TransferView_post 3 4 (mkRequest "alice" (mkTransferData 20000 "dave")) example_db =
    (Return (mkResponse (Error "Recipient not found") HTTP_404_NOT_FOUND),
     example_db).
Proof.
  assert (0 < 20000) as Ha by lia.
  assert (balance_of example_db "alice" = Some 10000) as Hb by reflexivity.
  split; [exact Ha|]. split; [exact Hb|].
  apply (transfer_error_precedence 3 4 "alice" "dave" 20000 10000 example_db Ha Hb).
  - discriminate.
  - by vm_compute.
Defined.

(** C7. Positive-amount validation: a deposit, a withdrawal or a transfer
    whose amount is zero or negative is rejected with ValidationError before
    any account is read, any balance written or any record created: the
    database is unchanged. *)
Theorem nonpositive_amount_rejected (now now' : Z) (u r : string) (a : Z)
    (db : Database) :
  a ≤ 0 →
  DepositView_post now (mkRequest u (mkAmountData a)) db
    = (Raise ValidationError, db) ∧
  WithdrawView_post now (mkRequest u (mkAmountData a)) db
    = (Raise ValidationError, db) ∧
  TransferView_post now now' (mkRequest u (mkTransferData a r)) db
    = (Raise ValidationError, db).
Proof.
  intros Ha. split_and!.
  - exact (invalid_amount_unchanged (Deposit now (mkRequest u (mkAmountData a))) db Ha).
  - exact (invalid_amount_unchanged (Withdraw now (mkRequest u (mkAmountData a))) db Ha).
  - exact (invalid_amount_unchanged
             (Transfer now now' (mkRequest u (mkTransferData a r))) db Ha).
Qed.

Lemma nonpositive_amount_rejected_witness :
  0 ≤ 0 ∧
  WithdrawView_post 1 (mkRequest "alice" (mkAmountData 0)) example_db
    = (Raise ValidationError, example_db).
Proof.
  assert (0 ≤ 0) as Ha by lia.
  split; [exact Ha|].
  exact (proj1 (proj2 (nonpositive_amount_rejected 1 1 "alice" "bob" 0 example_db Ha))).
Defined.

(** C9. A recipient that is a user without a bank account: the transfer of a
    positive amount from a sender with an account to such a recipient never
    answers recipient-not-found; once the self-transfer, existence and funds
    checks have passed, reading the recipient's account raises
    [RelatedObjectDoesNotExist], which no handler of the view catches, and
    nothing is written. *)
Theorem transfer_recipient_without_account (now_out now_in : Z) (u r : string)
    (a sb : Z) (db : Database) :
  0 < a → u ≠ r → r ∈ auth_user db →
  balance_of db r = None → balance_of db u = Some sb →
  let res := TransferView_post now_out now_in (mkRequest u (mkTransferData a r)) db in
  res.1 ≠ Return (mkResponse (Error "Recipient not found") HTTP_404_NOT_FOUND) ∧
  (a ≤ sb → res = (Raise RelatedObjectDoesNotExist, db)).
Proof.
  unfold balance_of. intros Ha Hne Hr Hnone Hu. cbv zeta.
  rewrite (TransferView_post_eq _ _ _ _ _ sb) by done.
  rewrite decide_False by done. rewrite decide_True by done. rewrite Hnone.
  split.
  - by case_decide.
  - intros Hle. by rewrite decide_False by lia.
Qed.

Lemma transfer_recipient_without_account_witness :
  balance_of example_db "carol" = None ∧
  TransferView_post 3 4 (mkRequest "alice" (mkTransferData 10000 "carol")) example_db
    = (Raise RelatedObjectDoesNotExist, example_db).
Proof.
  assert (0 < 10000) as Ha by lia.
  assert ("alice" ≠ "carol") as Hne by discriminate.
  assert ("carol" ∈ auth_user example_db) as Hr by (by vm_compute).
  assert (balance_of example_db "carol" = None) as Hnone by reflexivity.
  assert (balance_of example_db "alice" = Some 10000) as Hu by reflexivity.
  split; [exact Hnone|].
  apply (transfer_recipient_without_account 3 4 "alice" "carol" 10000 10000
           example_db Ha Hne Hr Hnone Hu).
  lia.
Defined.

(** ** The transaction history *)

#[global] Instance created_at_desc_total : Total created_at_desc.
Proof. intros t1 t2. unfold created_at_desc. lia. Qed.

#[global] Instance created_at_desc_trans : Transitive created_at_desc.
Proof. intros t1 t2 t3. unfold created_at_desc. lia. Qed.

Lemma get_queryset_eq u b db :
  accounts_bankaccount db !! u = Some b →
  TransactionHistoryView_get_queryset (mkRequest u ()) db =
    (Return (merge_sort created_at_desc (records_of u db)), db).
Proof. intros Hu. unfold_view. by rewrite Hu. Qed.

Lemma chronological_filter (P : Transaction → Prop) `{∀ t, Decision (P t)} log :
  chronological log → chronological (filter P log).
Proof.
  unfold chronological. induction 1 as [|t log Hlog IH Ht]; [constructor|].
  rewrite filter_cons. case_decide; [|done].
  constructor; [done|]. rewrite Forall_forall in Ht. apply Forall_forall.
  intros t' Ht'. apply list_elem_of_filter in Ht' as [_ Ht']. by apply Ht.
Qed.

Lemma chronological_reverse log :
  chronological log → StronglySorted created_at_desc (reverse log).
Proof.
  unfold chronological. induction 1 as [|t log Hlog IH Ht]; [constructor|].
  rewrite reverse_cons. apply StronglySorted_app_2; [|done|repeat constructor].
  intros t1 t2 Ht1 Ht2. apply list_elem_of_singleton in Ht2 as ->.
  rewrite elem_of_reverse in Ht1. rewrite Forall_forall in Ht.
  specialize (Ht _ Ht1). unfold created_at_desc. lia.
Qed.

Lemma chronological_NoDup_created_at log t1 t2 :
  chronological log → t1 ∈ log → t2 ∈ log → created_at t1 = created_at t2 → t1 = t2.
Proof.
  unfold chronological. induction 1 as [|t log Hlog IH Ht]; [by inversion 1|].
  rewrite Forall_forall in Ht. intros H1 H2 Heq.
  apply elem_of_cons in H1 as [->|H1]; apply elem_of_cons in H2 as [->|H2];
    try done.
  - specialize (Ht _ H2). lia.
  - specialize (Ht _ H1). lia.
  - by apply IH.
Qed.

(** History ordering: when the log is chronological, the history is the
    caller's records in the reverse of the order of their creation. *)
Lemma history_reverse_chronological u b db :
  accounts_bankaccount db !! u = Some b →
  chronological (accounts_transaction db) →
  TransactionHistoryView_get_queryset (mkRequest u ()) db =
    (Return (reverse (records_of u db)), db).
Proof.
  intros Hu Hlog. rewrite (get_queryset_eq _ b) by done. do 2 f_equal.
  pose proof (chronological_filter (λ t, tx_account t = u) _ Hlog) as Hrec.
  fold (records_of u db) in Hrec.
  apply (StronglySorted_unique_strong created_at_desc).
  - intros t1 t2 Ht1 Ht2 H12 H21. unfold created_at_desc in *.
    apply (chronological_NoDup_created_at (records_of u db)); [done| | |lia].
    + by rewrite <- (merge_sort_Permutation created_at_desc).
    + by apply elem_of_reverse.
  - apply StronglySorted_merge_sort; apply _.
  - by apply chronological_reverse.
  - rewrite merge_sort_Permutation. by rewrite reverse_Permutation.
Qed.

(** C6. History ordering: for a caller with an account, the history view
    returns exactly the records of that account in the log (a permutation of
    them: none lost, none added, none repeated), sorted by creation time in
    descending order, the most recent first, and leaves the database as it
    was. *)
Theorem history_sorted (u : string) (b : Z) (db : Database) :
  balance_of db u = Some b →
  ∃ qs, TransactionHistoryView_get_queryset (mkRequest u ()) db = (Return qs, db) ∧
        qs ≡ₚ records_of u db ∧
        StronglySorted (λ t1 t2, created_at t2 ≤ created_at t1) qs.
Proof.
  unfold balance_of. intros Hu. eexists. split; [by apply (get_queryset_eq _ b)|].
  split.
  - apply merge_sort_Permutation.
  - apply (StronglySorted_merge_sort created_at_desc).
Qed.

Lemma history_sorted_witness :
  balance_of example_history_db "alice" = Some 4900 ∧
  ∃ qs, TransactionHistoryView_get_queryset (mkRequest "alice" ()) example_history_db
          = (Return qs, example_history_db) ∧
        qs ≡ₚ records_of "alice" example_history_db ∧
        StronglySorted (λ t1 t2, created_at t2 ≤ created_at t1) qs.
Proof.
  assert (balance_of example_history_db "alice" = Some 4900) as Hb by reflexivity.
  split; [exact Hb|].
  exact (history_sorted "alice" 4900 example_history_db Hb).
Defined.

Example history_example :
  (TransactionHistoryView_get_queryset (mkRequest "alice" ()) example_history_db).1 =
  Return [mkTransaction "alice" WITHDRAWAL 100 "Withdrawal from account" 4;
          mkTransaction "alice" TRANSFER_OUT 10000 "Transfer to bob" 2;
          mkTransaction "alice" DEPOSIT 5000 "Deposit to account" 1].
Proof. by vm_compute. Qed.

(** C10. The history is scoped to the caller: for a caller with an account,
    every record of the returned sequence refers to the caller's account, and
    no record of the log that refers to another account is in it. *)
Theorem history_scoped_to_caller (u : string) (b : Z) (db : Database) :
  balance_of db u = Some b →
  ∃ qs, (TransactionHistoryView_get_queryset (mkRequest u ()) db).1 = Return qs ∧
        (∀ t, t ∈ qs → tx_account t = u) ∧
        (∀ t, tx_account t ≠ u → t ∉ qs).
Proof.
  unfold balance_of. intros Hu. rewrite (get_queryset_eq _ b) by done.
  eexists. split; [done|].
  assert (∀ t, t ∈ merge_sort created_at_desc (records_of u db) → tx_account t = u)
    as Hscope.
  { intros t. rewrite merge_sort_Permutation. unfold records_of.
    rewrite list_elem_of_filter. tauto. }
  split; [done|]. intros t Hne Ht. by apply Hne, Hscope.
Qed.

Lemma history_scoped_to_caller_witness :
  balance_of example_history_db "alice" = Some 4900 ∧
  ∃ qs, (TransactionHistoryView_get_queryset (mkRequest "alice" ())
           example_history_db).1 = Return qs ∧
        (∀ t, t ∈ qs → tx_account t = "alice") ∧
        (∀ t, tx_account t ≠ "alice" → t ∉ qs).
Proof.
  assert (balance_of example_history_db "alice" = Some 4900) as Hb by reflexivity.
  split; [exact Hb|].
  exact (history_scoped_to_caller "alice" 4900 example_history_db Hb).
Defined.

(** ** Concurrent requests: every interleaving keeps the balances at least 0 *)

Ltac run_step := simpl; unfold finish; unfold_view.

(** The steps of a thread that runs alone are the view. *)
Lemma run_alone_perform op db :
  run_alone 4 (Start op) db = (Done (perform op db).1, (perform op db).2).
Proof.
  destruct op as [now [u [a]]|now [u [a]]|now1 now2 [u [a r]]]; run_step;
    (destruct (0 <? a); run_step; [|done]);
    (destruct (accounts_bankaccount db !! u); run_step; [|done]).
  - done.
  - case_decide; by run_step.
  - case_decide; run_step; [done|].
    case_decide; run_step; [|done].
    case_decide; run_step; [done|].
    destruct (accounts_bankaccount db !! r); by run_step.
Qed.

Lemma step_ok t db :
  thread_ok t → balances_nonneg db →
  thread_ok (step t db).1 ∧ balances_nonneg (step t db).2.
Proof.
  intros Ht Hdb. unfold balances_nonneg in *.
  destruct t as [[now [u [a]]|now [u [a]]|now1 now2 [u [a r]]]
                |now acc a|now acc a|now acc a|now acc a
                |now1 now2 c sacc a r|now1 now2 c sacc a r r'
                |now1 now2 c sacc racc a r|out]; simpl in Ht; run_step;
    try done.
  - valid_amount Ht. destruct (accounts_bankaccount db !! u) as [b|] eqn:Hu;
      run_step; [|done]. split; [|done]. apply Hdb in Hu. simpl in Hu. lia.
  - valid_amount Ht. destruct (accounts_bankaccount db !! u) as [b|] eqn:Hu;
      run_step; [|done]. case_decide; run_step; [done|]. split; [lia|done].
  - valid_amount Ht. destruct (accounts_bankaccount db !! u) as [b|] eqn:Hu;
      run_step; [|done]. case_decide; run_step; [done|].
    split; [|done]. apply Hdb in Hu. simpl in Hu. lia.
  - split; [done|]. by apply map_Forall_insert_2.
  - split; [done|]. by apply map_Forall_insert_2.
  - case_decide; run_step; [|done]. case_decide; run_step; [done|].
    split; [lia|done].
  - destruct (accounts_bankaccount db !! r') as [b|] eqn:Hr; run_step; [|done].
    split; [|done]. apply Hdb in Hr. simpl in Hr. lia.
  - split; [done|]. apply map_Forall_insert_2; [lia|].
    apply map_Forall_insert_2; [lia|done].
Qed.

Lemma schedule_thread_ok cfg i : config_ok cfg → config_ok (schedule_thread cfg i).
Proof.
  intros [Hdb Hts]. unfold schedule_thread.
  destruct (threads cfg !! i) as [t|] eqn:Hi; [|done].
  assert (thread_ok t) as Ht by (by eapply Forall_lookup_1).
  destruct (step_ok t (database cfg) Ht Hdb) as [Ht' Hdb'].
  destruct (step t (database cfg)) as [t' db']. split; simpl in *; [done|].
  by apply Forall_insert.
Qed.

Lemma run_ok schedule cfg : config_ok cfg → config_ok (run schedule cfg).
Proof.
  revert cfg. unfold run.
  induction schedule as [|i schedule IH]; intros cfg Hcfg; simpl; [done|].
  by apply IH, schedule_thread_ok.
Qed.

Lemma initial_ok db ops :
  balances_nonneg db → Forall (λ op, 0 < operation_amount op) ops →
  config_ok (initial db ops).
Proof.
  intros Hdb Hops. split; [done|]. simpl. by apply Forall_fmap.
Qed.

(** C8, as the views have it.  Deposits, withdrawals and transfers of
    positive amounts that run at once, each as its sequence of separately
    committed calls on its own copy of the account: from a database whose
    balances are at least 0, under every interleaving of the steps of the
    requests, every stored balance is at least 0 at every point. *)
Theorem concurrent_balances_nonneg (db : Database) (ops : list Operation)
    (schedule : list nat) :
  balances_nonneg db →
  Forall (λ op, 0 < operation_amount op) ops →
  balances_nonneg (database (run schedule (initial db ops))).
Proof.
  intros Hdb Hops. by apply run_ok, initial_ok.
Qed.

Lemma race_db_nonneg : balances_nonneg race_db.
Proof.
  unfold balances_nonneg, race_db. simpl.
  apply map_Forall_insert_2; [lia|]. apply map_Forall_empty.
Defined.

Lemma concurrent_balances_nonneg_witness :
  balances_nonneg race_db ∧
  Forall (λ op, 0 < operation_amount op) race_ops ∧
  balances_nonneg (database (run race_schedule (initial race_db race_ops))).
Proof.
  assert (Forall (λ op, 0 < operation_amount op) race_ops) as Hops.
  { unfold race_ops. repeat constructor. }
  split; [exact race_db_nonneg|]. split; [exact Hops|].
  exact (concurrent_balances_nonneg race_db race_ops race_schedule
           race_db_nonneg Hops).
Defined.

(** C8 fails as stated: the check, the write and the record of a withdrawal
    are not one atomic unit.  Two withdrawals of 100 from a balance of 100
    both read 100 and pass the check; when the second one is about to write,
    the stored balance is 0, below its amount, so the check does not hold at
    the time of the write; both succeed and both are recorded, 200 withdrawn
    from 100, which neither order of the two requests run one after the other
    allows (the second is then refused). *)
Lemma withdrawals_race :
  let withdrawal_successful :=
    Done (Return (mkResponse (Message "Withdrawal successful" 0) HTTP_200_OK)) in
  let final := run race_schedule (initial race_db race_ops) in
  ¬ (∀ schedule, check_holds_at_write (run schedule (initial race_db race_ops))) ∧
  threads final = [withdrawal_successful; withdrawal_successful] ∧
  balance_of (database final) "alice" = Some 0 ∧
  tx_amount <$> accounts_transaction (database final) = [100; 100] ∧
  (WithdrawView_post 1 (mkRequest "alice" (mkAmountData 100));;
   WithdrawView_post 2 (mkRequest "alice" (mkAmountData 100))) race_db
  = (Return (mkResponse (Error "Insuficient funds") HTTP_400_BAD_REQUEST),
     (WithdrawView_post 1 (mkRequest "alice" (mkAmountData 100)) race_db).2).
Proof.
  cbv zeta. split; [|by vm_compute].
  intros Hcheck.
  destruct (Hcheck (take 3 race_schedule) 1%nat 2 (mkBankAccount "alice" 0) 100)
    as (b & Hb & Hle); [by vm_compute|].
  vm_compute in Hb. injection Hb as <-. lia.
Qed.

(** Between the [save()] and the [create()] of a deposit, the other requests
    see the new balance and no record of it. *)
Example deposit_between_save_and_create :
  let cfg := run [0; 0]%nat
               (initial race_db [Deposit 1 (mkRequest "alice" (mkAmountData 50))]) in
  balance_of (database cfg) "alice" = Some 150 ∧
  accounts_transaction (database cfg) = [].
Proof. by vm_compute. Qed.

(** ** Failures, the account detail and the other accounts *)

Ltac by_cases_of_view op db Ha :=
  let u := fresh "u" in let a := fresh "a" in let r := fresh "r" in
  let b := fresh "b" in let Hu := fresh "Hu" in
  destruct op as [? [u [a]]|? [u [a]]|? ? [u [a r]]]; simpl in *;
  (destruct (accounts_bankaccount db !! u) as [b|] eqn:Hu;
   [first [rewrite (DepositView_post_eq _ _ _ b) by done
          |rewrite (WithdrawView_post_eq _ _ _ b) by done
          |rewrite (TransferView_post_eq _ _ _ _ _ b) by done]
   |first [rewrite (no_account_unchanged (Deposit _ (mkRequest u (mkAmountData a)))
                      db Ha Hu : DepositView_post _ _ _ = _)
          |rewrite (no_account_unchanged (Withdraw _ (mkRequest u (mkAmountData a)))
                      db Ha Hu : WithdrawView_post _ _ _ = _)
          |rewrite (no_account_unchanged
                      (Transfer _ _ (mkRequest u (mkTransferData a r))) db Ha Hu
                    : TransferView_post _ _ _ _ = _)]]);
  repeat case_decide;
  try match goal with
      | |- context [match accounts_bankaccount db !! ?r with _ => _ end] =>
          let rb := fresh "rb" in let Hr := fresh "Hr" in
          destruct (accounts_bankaccount db !! r) as [rb|] eqn:Hr
      end;
  simpl in *.

(** X1. Whatever the reason of a failure (insufficient funds, transfer to
    oneself, unknown recipient, caller or recipient without an account),
    a request of a positive amount that does not answer with its success
    message leaves the whole database as it was; one that does adds at least
    one record to the log. *)
Theorem failure_writes_nothing (op : Operation) (db : Database) :
  0 < operation_amount op →
  (is_success (perform op db).1 = false → (perform op db).2 = db) ∧
  (is_success (perform op db).1 = true →
     (length (accounts_transaction db)
      < length (accounts_transaction (perform op db).2))%nat).
Proof.
  intros Ha. by_cases_of_view op db Ha; split; try done; intros _;
    rewrite length_app; simpl; lia.
Qed.

Lemma failure_writes_nothing_witness :
  0 < 20000 ∧
  (WithdrawView_post 2 (mkRequest "alice" (mkAmountData 20000)) example_db).2
    = example_db.
Proof.
  assert (0 < 20000) as Ha by lia.
  split; [exact Ha|].
  apply (failure_writes_nothing
           (Withdraw 2 (mkRequest "alice" (mkAmountData 20000))) example_db Ha).
  reflexivity.
Defined.

Lemma records_of_log u users accounts log :
  records_of u (mkDatabase users accounts log) = filter (λ t, tx_account t = u) log.
Proof. done. Qed.

Lemma get_queryset_records u db db' :
  accounts_bankaccount db' !! u = accounts_bankaccount db !! u →
  records_of u db' = records_of u db →
  (TransactionHistoryView_get_queryset (mkRequest u ()) db').1 =
  (TransactionHistoryView_get_queryset (mkRequest u ()) db).1.
Proof.
  intros Hacc Hrec. unfold_view. rewrite Hacc.
  destruct (accounts_bankaccount db !! u); simpl; [|done].
  fold (records_of u db') (records_of u db). by rewrite Hrec.
Qed.

(** X2. The balance in the success message of a deposit, a withdrawal or a
    transfer is the balance that the account detail view shows for the caller
    right after it, and showing it changes nothing. *)
Theorem detail_shows_reported_balance (op : Operation) (db : Database)
    (m : string) (nb st : Z) :
  0 < operation_amount op →
  (perform op db).1 = Return (mkResponse (Message m nb) st) →
  AccountDetailView_get_object (mkRequest (caller op) ()) (perform op db).2
  = (Return (mkBankAccount (caller op) nb), (perform op db).2).
Proof.
  intros Ha. unfold AccountDetailView_get_object, bank_account.
  by_cases_of_view op db Ha; intros Hout; try done; simplify_eq.
  - by rewrite lookup_insert_eq.
  - by rewrite lookup_insert_eq.
  - rewrite lookup_insert_ne by done. by rewrite lookup_insert_eq.
Qed.

Lemma detail_shows_reported_balance_witness :
  AccountDetailView_get_object (mkRequest "alice" ())
    (DepositView_post 1 (mkRequest "alice" (mkAmountData 5000)) example_db).2
  = (Return (mkBankAccount "alice" 15000),
     (DepositView_post 1 (mkRequest "alice" (mkAmountData 5000)) example_db).2).
Proof.
  assert (0 < 5000) as Ha by lia.
  apply (detail_shows_reported_balance
           (Deposit 1 (mkRequest "alice" (mkAmountData 5000))) example_db
           "Deposit successful" 15000 HTTP_200_OK Ha).
  reflexivity.
Defined.

(** X3. An operation touches only its parties: for every user that is
    neither the caller nor, for a transfer, the named recipient, the balance,
    the records and the transaction history are the same after the operation
    as before. *)
Theorem others_unaffected (op : Operation) (db : Database) (v : string) :
  0 < operation_amount op → v ∉ parties op →
  balance_of (perform op db).2 v = balance_of db v ∧
  records_of v (perform op db).2 = records_of v db ∧
  (TransactionHistoryView_get_queryset (mkRequest v ()) (perform op db).2).1 =
  (TransactionHistoryView_get_queryset (mkRequest v ()) db).1.
Proof.
  intros Ha Hv.
  assert (balance_of (perform op db).2 v = balance_of db v ∧
          records_of v (perform op db).2 = records_of v db) as [Hb Hrec].
  { unfold balance_of.
    by_cases_of_view op db Ha; try done;
      unfold deposited, withdrawn, transferred;
      rewrite ?not_elem_of_cons in Hv; destruct_and?;
      rewrite records_of_log, filter_app; simpl;
      rewrite ?filter_cons, ?filter_nil; simpl;
      rewrite ?decide_False by done; rewrite ?app_nil_r;
      (rewrite ?lookup_insert_ne by done); done. }
  split_and!; [done|done|]. by apply get_queryset_records.
Qed.

Lemma others_unaffected_witness :
  0 < 10000 ∧ ("carol" ∉ ["alice"; "bob"]) ∧
  balance_of
    (TransferView_post 3 4 (mkRequest "alice" (mkTransferData 10000 "bob"))
       example_db).2 "carol"
  = balance_of example_db "carol".
Proof.
  assert (0 < 10000) as Ha by lia.
  assert ("carol" ∉ ["alice"; "bob"]) as Hv.
  { rewrite !not_elem_of_cons. split_and!; [discriminate|discriminate|].
    apply not_elem_of_nil. }
  split; [exact Ha|]. split; [exact Hv|].
  exact (proj1 (others_unaffected
                  (Transfer 3 4 (mkRequest "alice" (mkTransferData 10000 "bob")))
                  example_db "carol" Ha Hv)).
Defined.

(** ** The balances and the log agree *)

Lemma net_app l1 l2 : net (l1 ++ l2) = net l1 + net l2.
Proof. induction l1 as [|t l1 IH]; simpl; lia. Qed.

Ltac solve_offset :=
  rewrite ?filter_cons, ?filter_nil; simpl;
  repeat case_decide; simplify_eq;
  rewrite ?net_app; simpl; rewrite ?app_nil_r;
  repeat first [rewrite lookup_insert_eq | rewrite lookup_insert_ne by done];
  repeat match goal with
         | H : accounts_bankaccount _ !! _ = Some _ |- _ => rewrite H
         end;
  simpl;
  try match goal with
      | |- context [accounts_bankaccount ?db !! ?u] =>
          destruct (accounts_bankaccount db !! u); simpl
      end;
  try done; f_equal; unfold signed_amount; simpl; lia.

Lemma perform_ledger_offset op db u :
  0 < operation_amount op →
  ledger_offset (perform op db).2 u = ledger_offset db u.
Proof.
  intros Ha. unfold ledger_offset, balance_of.
  by_cases_of_view op db Ha; try done;
    unfold deposited, withdrawn, transferred;
    rewrite records_of_log, filter_app; simpl;
    fold (records_of u db).
  - destruct (decide (u0 = u)) as [->|]; solve_offset.
  - destruct (decide (u0 = u)) as [->|]; solve_offset.
  - destruct (decide (u0 = u)) as [->|];
      [|destruct (decide (r = u)) as [->|]]; solve_offset.
Qed.

(** X4. The ledger reconciles.  Over every sequence of deposits, withdrawals
    and transfers of positive amounts run one after the other, the balance of
    each account moves by exactly the net of the records added for it
    (deposits and incoming transfers counted as credits, withdrawals and
    outgoing transfers as debits); so an account that starts at 0 with no
    record has, at the end, the net of its records as its balance. *)
Theorem ledger_reconciles (ops : list Operation) (db : Database) (u : string) :
  Forall (λ op, 0 < operation_amount op) ops →
  ledger_offset (perform_all ops db) u = ledger_offset db u ∧
  (balance_of db u = Some 0 → records_of u db = [] →
   balance_of (perform_all ops db) u
   = Some (net (records_of u (perform_all ops db)))).
Proof.
  intros Hops.
  assert (ledger_offset (perform_all ops db) u = ledger_offset db u) as Hoff.
  { revert db. unfold perform_all.
    induction Hops as [|op ops Hop _ IH]; intros db; simpl; [done|].
    rewrite IH. by apply perform_ledger_offset. }
  split; [done|]. intros Hb Hrec. revert Hoff. unfold ledger_offset.
  rewrite Hb, Hrec. simpl.
  destruct (balance_of (perform_all ops db) u) as [b|]; simpl; [|done].
  intros [= Heq]. f_equal. lia.
Qed.

Lemma ledger_reconciles_witness :
  Forall (λ op, 0 < operation_amount op) example_ops ∧
  ledger_offset (perform_all example_ops example_db) "alice"
  = ledger_offset example_db "alice".
Proof.
  assert (Forall (λ op, 0 < operation_amount op) example_ops) as Hops.
  { unfold example_ops. repeat constructor. }
  split; [exact Hops|].
  exact (proj1 (ledger_reconciles example_ops example_db "alice" Hops)).
Defined.

Lemma perform_total_balance op db :
  0 < operation_amount op →
  total_balance (perform op db).2 - net (accounts_transaction (perform op db).2)
  = total_balance db - net (accounts_transaction db).
Proof.
  intros Ha. unfold total_balance.
  by_cases_of_view op db Ha; try done; rewrite net_app; simpl;
    unfold signed_amount; simpl.
  - rewrite (total_balance_insert _ u b) by done. lia.
  - rewrite (total_balance_insert _ u b) by done. lia.
  - rewrite (total_balance_insert _ r rb) by (by rewrite lookup_insert_ne).
    rewrite (total_balance_insert _ u b) by done. lia.
Qed.

(** X5. Money enters the ledger by deposits and leaves it by withdrawals
    only: over every sequence of operations of positive amounts run one after
    the other, the sum of all balances moves by exactly the net of the
    records added to the log, in which the two records of a transfer cancel. *)
Theorem total_reconciles (ops : list Operation) (db : Database) :
  Forall (λ op, 0 < operation_amount op) ops →
  total_balance (perform_all ops db)
    - net (accounts_transaction (perform_all ops db))
  = total_balance db - net (accounts_transaction db).
Proof.
  intros Hops. revert db. unfold perform_all.
  induction Hops as [|op ops Hop _ IH]; intros db; simpl; [done|].
  rewrite IH. by apply perform_total_balance.
Qed.

Lemma total_reconciles_witness :
  Forall (λ op, 0 < operation_amount op) example_ops ∧
  total_balance (perform_all example_ops example_db)
    - net (accounts_transaction (perform_all example_ops example_db))
  = total_balance example_db - net (accounts_transaction example_db).
Proof.
  assert (Forall (λ op, 0 < operation_amount op) example_ops) as Hops.
  { unfold example_ops. repeat constructor. }
  split; [exact Hops|].
  exact (total_reconciles example_ops example_db Hops).
Defined.

(** ** Round trips *)

(** X6. A deposit undone by a withdrawal: on an account whose balance is at
    least 0, a deposit of a positive amount followed by a withdrawal of the
    same amount always succeeds and returns the original balance; the table
    of balances is again what it was, and the log keeps both records. *)
Theorem deposit_withdraw_round_trip (now now' : Z) (u : string) (a b : Z)
    (db : Database) :
  0 < a → balance_of db u = Some b → 0 ≤ b →
  let db1 := (DepositView_post now (mkRequest u (mkAmountData a)) db).2 in
  let res := WithdrawView_post now' (mkRequest u (mkAmountData a)) db1 in
  res.1 = Return (mkResponse (Message "Withdrawal successful" b) HTTP_200_OK) ∧
  accounts_bankaccount res.2 = accounts_bankaccount db ∧
  accounts_transaction res.2 =
    accounts_transaction db ++
      [mkTransaction u DEPOSIT a "Deposit to account" now;
       mkTransaction u WITHDRAWAL a "Withdrawal from account" now'].
Proof.
  unfold balance_of. intros Ha Hu Hb. cbv zeta.
  rewrite (DepositView_post_eq _ _ _ b) by done. simpl.
  rewrite (WithdrawView_post_eq _ _ _ (b + a))
    by first [done | apply lookup_insert_eq].
  rewrite decide_False by lia. simpl.
  replace (b + a - a) with b by lia. split_and!; [done| |].
  - rewrite insert_insert_eq. by apply insert_id.
  - by rewrite <- app_assoc.
Qed.

Lemma deposit_withdraw_round_trip_witness :
  accounts_bankaccount
    (WithdrawView_post 2 (mkRequest "alice" (mkAmountData 5000))
       (DepositView_post 1 (mkRequest "alice" (mkAmountData 5000)) example_db).2).2
  = accounts_bankaccount example_db.
Proof.
  assert (0 < 5000) as Ha by lia.
  assert (balance_of example_db "alice" = Some 10000) as Hb by reflexivity.
  assert (0 ≤ 10000) as Hnn by lia.
  exact (proj1 (proj2 (deposit_withdraw_round_trip 1 2 "alice" 5000 10000
                         example_db Ha Hb Hnn))).
Defined.

(** X7. A transfer sent back: when [u] transfers a positive amount that it
    has to [r], whose balance is at least 0, and [r] transfers the same amount
    back, both transfers succeed, the table of balances is again what it was,
    and the log keeps the four records. *)
Theorem transfer_round_trip (n1 n2 n3 n4 : Z) (u r : string) (a sb rb : Z)
    (db : Database) :
  0 < a → u ≠ r → u ∈ auth_user db → r ∈ auth_user db →
  balance_of db u = Some sb → balance_of db r = Some rb → a ≤ sb → 0 ≤ rb →
  let db1 := (TransferView_post n1 n2 (mkRequest u (mkTransferData a r)) db).2 in
  let res := TransferView_post n3 n4 (mkRequest r (mkTransferData a u)) db1 in
  res.1 = Return (mkResponse (Message "Transfer successful" rb) HTTP_200_OK) ∧
  accounts_bankaccount res.2 = accounts_bankaccount db ∧
  length (accounts_transaction res.2) = (length (accounts_transaction db) + 4)%nat.
Proof.
  unfold balance_of. intros Ha Hne Hu Hr Hsb Hrb Hle Hnn. cbv zeta.
  rewrite (TransferView_post_eq n1 n2 u r a sb db) by done.
  rewrite decide_False by done. rewrite decide_True by done.
  rewrite decide_False by lia. rewrite Hrb. simpl.
  rewrite (TransferView_post_eq _ _ _ _ _ (rb + a))
    by first [done | apply lookup_insert_eq].
  rewrite decide_False by done. simpl. rewrite decide_True by done.
  rewrite decide_False by lia.
  rewrite lookup_insert_ne by done. rewrite lookup_insert_eq. simpl.
  replace (rb + a - a) with rb by lia. replace (sb - a + a) with sb by lia.
  split_and!; [done| |].
  - apply map_eq. intros v.
    destruct (decide (v = u)) as [->|]; [by rewrite lookup_insert_eq|].
    rewrite lookup_insert_ne by done.
    destruct (decide (v = r)) as [->|]; [by rewrite lookup_insert_eq|].
    by rewrite !lookup_insert_ne by done.
  - rewrite !length_app. simpl. lia.
Qed.

Lemma transfer_round_trip_witness :
  accounts_bankaccount
    (TransferView_post 5 6 (mkRequest "bob" (mkTransferData 10000 "alice"))
       (TransferView_post 3 4 (mkRequest "alice" (mkTransferData 10000 "bob"))
          example_db).2).2
  = accounts_bankaccount example_db.
Proof.
  assert (0 < 10000) as Ha by lia.
  assert ("alice" ≠ "bob") as Hne by discriminate.
  assert ("alice" ∈ auth_user example_db) as Hu by (by vm_compute).
  assert ("bob" ∈ auth_user example_db) as Hr by (by vm_compute).
  assert (balance_of example_db "alice" = Some 10000) as Hsb by reflexivity.
  assert (balance_of example_db "bob" = Some 0) as Hrb by reflexivity.
  assert (10000 ≤ 10000) as Hle by lia.
  assert (0 ≤ 0) as Hnn by lia.
  exact (proj1 (proj2 (transfer_round_trip 3 4 5 6 "alice" "bob" 10000 10000 0
                         example_db Ha Hne Hu Hr Hsb Hrb Hle Hnn))).
Defined.

(** ** The latest operation in the history *)

Lemma sorted_head_latest (qs l : list Transaction) (t : Transaction) :
  StronglySorted created_at_desc qs → qs ≡ₚ l ++ [t] →
  Forall (λ t', created_at t' < created_at t) l →
  ∃ rest, qs = t :: rest ∧ rest ≡ₚ l.
Proof.
  intros Hsorted Hperm Hl. rewrite Forall_forall in Hl.
  destruct qs as [|h rest].
  { apply Permutation_nil in Hperm. by destruct l. }
  apply StronglySorted_inv in Hsorted as [_ Hh]. rewrite Forall_forall in Hh.
  assert (h = t) as ->.
  { assert (h ∈ l ++ [t]) as Hin by (rewrite <- Hperm; left).
    apply elem_of_app in Hin as [Hin|Hin];
      [|by apply list_elem_of_singleton in Hin].
    specialize (Hl _ Hin).
    assert (t ∈ h :: rest) as Ht
      by (rewrite Hperm; apply elem_of_app; right; left).
    apply elem_of_cons in Ht as [->|Ht]; [done|].
    specialize (Hh _ Ht). unfold created_at_desc in Hh. lia. }
  exists rest. split; [done|].
  apply (Permutation_cons_inv (a := t)). rewrite Hperm.
  by rewrite Permutation_app_comm.
Qed.

Lemma history_head_latest u b db users accounts t :
  accounts !! u = Some b → tx_account t = u →
  Forall (λ t', created_at t' < created_at t) (records_of u db) →
  ∃ rest,
    (TransactionHistoryView_get_queryset (mkRequest u ())
       (mkDatabase users accounts (accounts_transaction db ++ [t]))).1
    = Return (t :: rest) ∧ rest ≡ₚ records_of u db.
Proof.
  intros Hu Ht Hold. rewrite (get_queryset_eq _ b) by done. simpl.
  destruct (sorted_head_latest
              (merge_sort created_at_desc
                 (records_of u (mkDatabase users accounts
                                  (accounts_transaction db ++ [t]))))
              (records_of u db) t) as (rest & -> & Hrest); [| |done|by exists rest].
  - apply StronglySorted_merge_sort; apply _.
  - rewrite merge_sort_Permutation, records_of_log, filter_app.
    by rewrite filter_cons, decide_True.
Qed.

(** X8. The latest operation is on top of the history: after a deposit, or a
    withdrawal that the balance covers, stamped later than every record the
    caller had, the caller's history starts with the record of that
    operation, followed by the records it had before. *)
Theorem latest_operation_heads_history (now : Z) (u : string) (a b : Z)
    (db : Database) :
  0 < a → balance_of db u = Some b →
  Forall (λ t, created_at t < now) (records_of u db) →
  (∃ rest,
     (TransactionHistoryView_get_queryset (mkRequest u ())
        (DepositView_post now (mkRequest u (mkAmountData a)) db).2).1
     = Return (mkTransaction u DEPOSIT a "Deposit to account" now :: rest) ∧
     rest ≡ₚ records_of u db) ∧
  (a ≤ b →
   ∃ rest,
     (TransactionHistoryView_get_queryset (mkRequest u ())
        (WithdrawView_post now (mkRequest u (mkAmountData a)) db).2).1
     = Return (mkTransaction u WITHDRAWAL a "Withdrawal from account" now :: rest) ∧
     rest ≡ₚ records_of u db).
Proof.
  unfold balance_of. intros Ha Hu Hold. split; [|intros Hle].
  - rewrite (DepositView_post_eq _ _ _ b) by done.
    by apply (history_head_latest u (b + a)); [apply lookup_insert_eq|..].
  - rewrite (WithdrawView_post_eq _ _ _ b) by done. rewrite decide_False by lia.
    by apply (history_head_latest u (b - a)); [apply lookup_insert_eq|..].
Qed.

Lemma latest_operation_heads_history_witness :
  ∃ rest,
    (TransactionHistoryView_get_queryset (mkRequest "alice" ())
       (DepositView_post 5 (mkRequest "alice" (mkAmountData 700))
          example_history_db).2).1
    = Return (mkTransaction "alice" DEPOSIT 700 "Deposit to account" 5 :: rest) ∧
    rest ≡ₚ records_of "alice" example_history_db.
Proof.
  assert (0 < 700) as Ha by lia.
  assert (balance_of example_history_db "alice" = Some 4900) as Hb by reflexivity.
  assert (Forall (λ t, created_at t < 5) (records_of "alice" example_history_db))
    as Hold.
  { unfold records_of, example_history_db. simpl.
    rewrite !filter_cons, filter_nil. simpl. repeat constructor. }
  exact (proj1 (latest_operation_heads_history 5 "alice" 700 4900
                  example_history_db Ha Hb Hold)).
Defined.

(** X9. Both sides of a transfer see it on top of their histories: after a
    successful transfer whose two records are stamped later than the records
    each party had, the sender's history starts with the TRANSFER_OUT record
    and the recipient's with the TRANSFER_IN record. *)
Theorem transfer_heads_both_histories (now_out now_in : Z) (u r : string)
    (a sb rb : Z) (db : Database) :
  0 < a → u ≠ r → r ∈ auth_user db →
  balance_of db u = Some sb → balance_of db r = Some rb → a ≤ sb →
  Forall (λ t, created_at t < now_out) (records_of u db) →
  Forall (λ t, created_at t < now_in) (records_of r db) →
  let db' :=
    (TransferView_post now_out now_in (mkRequest u (mkTransferData a r)) db).2 in
  (∃ rest,
     (TransactionHistoryView_get_queryset (mkRequest u ()) db').1
     = Return (mkTransaction u TRANSFER_OUT a ("Transfer to " +:+ r) now_out
               :: rest) ∧
     rest ≡ₚ records_of u db) ∧
  (∃ rest,
     (TransactionHistoryView_get_queryset (mkRequest r ()) db').1
     = Return (mkTransaction r TRANSFER_IN a ("Transfer from " +:+ u) now_in
               :: rest) ∧
     rest ≡ₚ records_of r db).
Proof.
  unfold balance_of. intros Ha Hne Hr Hu Hrb Hle Holdu Holdr. cbv zeta.
  rewrite (TransferView_post_eq _ _ _ _ _ sb) by done.
  rewrite decide_False by done. rewrite decide_True by done.
  rewrite decide_False by lia. rewrite Hrb. simpl. unfold transferred.
  set (out := mkTransaction u TRANSFER_OUT a ("Transfer to " +:+ r) now_out).
  set (inc := mkTransaction r TRANSFER_IN a ("Transfer from " +:+ u) now_in).
  set (accounts := <[r:=rb + a]> (<[u:=sb - a]> (accounts_bankaccount db))).
  assert (accounts !! u = Some (sb - a)) as Hu'.
  { unfold accounts. rewrite lookup_insert_ne by done. apply lookup_insert_eq. }
  assert (accounts !! r = Some (rb + a)) as Hr' by apply lookup_insert_eq.
  split.
  - destruct (history_head_latest u (sb - a) db (auth_user db) accounts out)
      as (rest & Hq & Hrest); [done..|].
    exists rest. split; [|done]. rewrite <- Hq.
    apply get_queryset_records; [done|].
    rewrite !records_of_log, !filter_app. f_equal. subst out inc.
    rewrite !filter_cons, filter_nil. simpl.
    repeat case_decide; congruence.
  - destruct (history_head_latest r (rb + a) db (auth_user db) accounts inc)
      as (rest & Hq & Hrest); [done..|].
    exists rest. split; [|done]. rewrite <- Hq.
    apply get_queryset_records; [done|].
    rewrite !records_of_log, !filter_app. f_equal. subst out inc.
    rewrite !filter_cons, filter_nil. simpl.
    repeat case_decide; congruence.
Qed.

Lemma transfer_heads_both_histories_witness :
  ∃ rest,
    (TransactionHistoryView_get_queryset (mkRequest "bob" ())
       (TransferView_post 5 6 (mkRequest "alice" (mkTransferData 100 "bob"))
          example_history_db).2).1
    = Return (mkTransaction "bob" TRANSFER_IN 100 "Transfer from alice" 6 :: rest) ∧
    rest ≡ₚ records_of "bob" example_history_db.
Proof.
  assert (0 < 100) as Ha by lia.
  assert ("alice" ≠ "bob") as Hne by discriminate.
  assert ("bob" ∈ auth_user example_history_db) as Hr by (by vm_compute).
  assert (balance_of example_history_db "alice" = Some 4900) as Hu by reflexivity.
  assert (balance_of example_history_db "bob" = Some 10000) as Hb by reflexivity.
  assert (100 ≤ 4900) as Hle by lia.
  assert (Forall (λ t, created_at t < 5) (records_of "alice" example_history_db))
    as Holdu.
  { unfold records_of, example_history_db. simpl.
    rewrite !filter_cons, filter_nil. simpl. repeat constructor. }
  assert (Forall (λ t, created_at t < 6) (records_of "bob" example_history_db))
    as Holdr.
  { unfold records_of, example_history_db. simpl.
    rewrite !filter_cons, filter_nil. simpl. repeat constructor. }
  exact (proj2 (transfer_heads_both_histories 5 6 "alice" "bob" 100 4900 10000
                  example_history_db Ha Hne Hr Hu Hb Hle Holdu Holdr)).
Defined.

(** ** What no interleaving of requests does *)

(** An invariant of the database and of every thread, kept by each step, holds
    after every schedule. *)
Lemma run_invariant (I : Database → Prop) (T : Thread → Prop) :
  (∀ t db, T t → I db → T (step t db).1 ∧ I (step t db).2) →
  ∀ schedule cfg,
    I (database cfg) → Forall T (threads cfg) →
    I (database (run schedule cfg)) ∧ Forall T (threads (run schedule cfg)).
Proof.
  intros Hstep schedule. unfold run.
  induction schedule as [|i schedule IH]; intros cfg Hdb Hts; simpl; [done|].
  apply IH; unfold schedule_thread;
    destruct (threads cfg !! i) as [t|] eqn:Hi; try done;
    (assert (T t) as Ht by (by eapply Forall_lookup_1));
    destruct (Hstep t (database cfg) Ht Hdb) as [Ht' Hdb'];
    destruct (step t (database cfg)) as [t' db']; simpl in *; [done|].
  by apply Forall_insert.
Qed.

Lemma step_known (D : gset string) (U : gset string) t db :
  thread_known D t →
  auth_user db = U ∧ dom (accounts_bankaccount db) = D →
  thread_known D (step t db).1 ∧
  (auth_user (step t db).2 = U ∧ dom (accounts_bankaccount (step t db).2) = D).
Proof.
  intros Ht [HU HD].
  assert (∀ u b, accounts_bankaccount db !! u = Some b → u ∈ D) as Hin.
  { intros u b Hu. rewrite <- HD. apply elem_of_dom. by eexists. }
  assert (∀ u b, u ∈ D → dom (<[u := b]> (accounts_bankaccount db)) = D) as Hins.
  { intros u b Hu. rewrite dom_insert_lookup_L; [done|].
    apply elem_of_dom. by rewrite HD. }
  destruct t as [[now [u [a]]|now [u [a]]|now1 now2 [u [a r]]]
                |now acc a|now acc a|now acc a|now acc a
                |now1 now2 c sacc a r|now1 now2 c sacc a r r'
                |now1 now2 c sacc racc a r|out]; simpl in Ht; run_step;
    try done.
  - destruct (0 <? a); run_step; [|done].
    destruct (accounts_bankaccount db !! u) as [b|] eqn:Hu; run_step; [|done].
    split; [|done]. by eapply Hin.
  - destruct (0 <? a); run_step; [|done].
    destruct (accounts_bankaccount db !! u) as [b|] eqn:Hu; run_step; [|done].
    case_decide; run_step; [done|]. split; [|done]. by eapply Hin.
  - destruct (0 <? a); run_step; [|done].
    destruct (accounts_bankaccount db !! u) as [b|] eqn:Hu; run_step; [|done].
    case_decide; run_step; [done|]. split; [|done]. by eapply Hin.
  - split; [done|]. split; [done|]. by apply Hins.
  - split; [done|]. split; [done|]. by apply Hins.
  - case_decide; run_step; [|done]. by case_decide; run_step.
  - destruct (accounts_bankaccount db !! r') as [b|] eqn:Hr; run_step; [|done].
    split; [|done]. split; [done|]. by eapply Hin.
  - destruct Ht as [Hs Hr]. split; [done|]. split; [done|].
    rewrite dom_insert_lookup_L; [by apply Hins|].
    apply elem_of_dom. by rewrite Hins.
Qed.

(** X10. No request creates, removes or renames a user or a bank account:
    whatever requests run at once and however their steps interleave, the
    set of users and the set of accounts of the database stay what they
    were; so do they over every sequence of operations run one after the
    other. *)
Theorem users_and_accounts_preserved (db : Database) (ops : list Operation)
    (schedule : list nat) :
  (auth_user (database (run schedule (initial db ops))) = auth_user db ∧
   dom (accounts_bankaccount (database (run schedule (initial db ops))))
   = dom (accounts_bankaccount db)) ∧
  (auth_user (perform_all ops db) = auth_user db ∧
   dom (accounts_bankaccount (perform_all ops db)) = dom (accounts_bankaccount db)).
Proof.
  set (inv := λ db' : Database,
         auth_user db' = auth_user db ∧
         dom (accounts_bankaccount db') = dom (accounts_bankaccount db)).
  split.
  - apply (run_invariant inv (thread_known (dom (accounts_bankaccount db)))).
    + intros t db'. apply step_known.
    + done.
    + simpl. apply Forall_fmap, Forall_forall. by intros op _.
  - change (inv (perform_all ops db)). assert (inv db) as Hdb by done.
    revert Hdb. generalize db at 1 2. unfold perform_all.
    induction ops as [|op ops IH]; intros db0 Hdb0; simpl; [done|].
    apply IH. clear IH.
    assert (∀ n t db1, thread_known (dom (accounts_bankaccount db)) t → inv db1 →
              inv (run_alone n t db1).2) as Halone.
    { induction n as [|n IHn]; intros t db1 Ht Hdb1; simpl; [done|].
      destruct (step_known _ _ t db1 Ht Hdb1) as [Ht' Hdb1'].
      destruct (step t db1) as [t' db1']. by apply IHn. }
    specialize (Halone 4%nat (Start op) db0 I Hdb0).
    by rewrite run_alone_perform in Halone.
Qed.

Lemma grown_by_entries_refl log : grown_by_entries log log.
Proof. exists []. split; [constructor|]. simpl. by rewrite app_nil_r. Qed.

Lemma grown_by_entries_snoc log0 log e :
  grown_by_entries log0 log → entry e → grown_by_entries log0 (log ++ e).
Proof.
  intros (units & Hunits & ->) He. exists (units ++ [e]). split.
  - apply Forall_app. split; [done|]. by repeat constructor.
  - rewrite concat_app. simpl. by rewrite app_nil_r, app_assoc.
Qed.

Lemma step_entries log0 t db :
  thread_coherent t →
  grown_by_entries log0 (accounts_transaction db) →
  thread_coherent (step t db).1 ∧
  grown_by_entries log0 (accounts_transaction (step t db).2).
Proof.
  intros Ht Hlog.
  destruct t as [[now [u [a]]|now [u [a]]|now1 now2 [u [a r]]]
                |now acc a|now acc a|now acc a|now acc a
                |now1 now2 c sacc a r|now1 now2 c sacc a r r'
                |now1 now2 c sacc racc a r|out]; simpl in Ht; run_step;
    try done.
  - destruct (0 <? a); run_step; [|done].
    by destruct (accounts_bankaccount db !! u); run_step.
  - destruct (0 <? a); run_step; [|done].
    destruct (accounts_bankaccount db !! u); run_step; [|done].
    by case_decide; run_step.
  - destruct (0 <? a); run_step; [|done].
    destruct (accounts_bankaccount db !! u); run_step; [|done].
    by case_decide; run_step.
  - split; [done|]. apply grown_by_entries_snoc; [done|constructor].
  - split; [done|]. apply grown_by_entries_snoc; [done|constructor].
  - destruct Ht as [Hc Hne]. case_decide; run_step; [|done].
    by case_decide; run_step.
  - destruct Ht as (Hc & Hne & ->).
    by destruct (accounts_bankaccount db !! r); run_step.
  - destruct Ht as (-> & Hne & <-). split; [done|].
    rewrite <- app_assoc. simpl.
    apply grown_by_entries_snoc; [done|]. by constructor.
Qed.

(** X11. The log is append-only and holds whole entries only: whatever
    requests run at once and however their steps interleave, the log is at
    every point the initial log followed by the records of whole requests,
    each a single DEPOSIT record, a single WITHDRAWAL record, or a
    TRANSFER_OUT record immediately followed by the TRANSFER_IN record of
    the same amount between two distinct accounts, each describing the other
    party; no record is ever changed or removed, and no half of a transfer
    is ever in the log.  The same holds over every sequence of operations
    run one after the other. *)
Theorem log_grows_by_entries (db : Database) (ops : list Operation)
    (schedule : list nat) :
  grown_by_entries (accounts_transaction db)
    (accounts_transaction (database (run schedule (initial db ops)))) ∧
  grown_by_entries (accounts_transaction db)
    (accounts_transaction (perform_all ops db)).
Proof.
  set (inv := λ db' : Database,
         grown_by_entries (accounts_transaction db) (accounts_transaction db')).
  assert (inv db) as Hdb by apply grown_by_entries_refl.
  split.
  - apply (run_invariant inv thread_coherent).
    + intros t db'. apply step_entries.
    + done.
    + simpl. apply Forall_fmap, Forall_forall. by intros op _.
  - change (inv (perform_all ops db)).
    revert Hdb. generalize db at 1 2. unfold perform_all.
    induction ops as [|op ops IH]; intros db0 Hdb0; simpl; [done|].
    apply IH. clear IH.
    assert (∀ n t db1, thread_coherent t → inv db1 → inv (run_alone n t db1).2)
      as Halone.
    { induction n as [|n IHn]; intros t db1 Ht Hdb1; simpl; [done|].
      destruct (step_entries _ t db1 Ht Hdb1) as [Ht' Hdb1'].
      destruct (step t db1) as [t' db1']. by apply IHn. }
    specialize (Halone 4%nat (Start op) db0 I Hdb0).
    by rewrite run_alone_perform in Halone.
Qed.

(** ** Operations on different accounts *)

Lemma perform_frame op db v :
  0 < operation_amount op → v ∉ parties op →
  accounts_bankaccount (perform op db).2 !! v = accounts_bankaccount db !! v.
Proof.
  intros Ha Hv.
  by_cases_of_view op db Ha; try done;
    rewrite ?not_elem_of_cons in Hv; destruct_and?;
    (rewrite ?lookup_insert_ne by done); done.
Qed.

Lemma perform_auth_user op db :
  0 < operation_amount op → auth_user (perform op db).2 = auth_user db.
Proof. intros Ha. by by_cases_of_view op db Ha. Qed.

(** The answer of an operation and the balances it leaves to its parties
    depend on the users and on the balances of its parties only. *)
Lemma perform_local op db1 db2 :
  0 < operation_amount op →
  auth_user db1 = auth_user db2 →
  (∀ v, v ∈ parties op → accounts_bankaccount db1 !! v = accounts_bankaccount db2 !! v) →
  (perform op db1).1 = (perform op db2).1 ∧
  (∀ v, v ∈ parties op →
     accounts_bankaccount (perform op db1).2 !! v
     = accounts_bankaccount (perform op db2).2 !! v).
Proof.
  intros Ha Husers Hparties.
  destruct op as [now [u [a]]|now [u [a]]|now1 now2 [u [a r]]]; simpl in *.
  - assert (accounts_bankaccount db1 !! u = accounts_bankaccount db2 !! u) as Hu
      by (apply Hparties; left).
    destruct (accounts_bankaccount db2 !! u) as [b|] eqn:Hu2.
    + rewrite !(DepositView_post_eq _ _ _ b) by done. simpl. split; [done|].
      intros v Hv. apply list_elem_of_singleton in Hv as ->.
      by rewrite !lookup_insert_eq.
    + rewrite (no_account_unchanged (Deposit now (mkRequest u (mkAmountData a)))
                 db1 Ha Hu : DepositView_post _ _ _ = _).
      rewrite (no_account_unchanged (Deposit now (mkRequest u (mkAmountData a)))
                 db2 Ha Hu2 : DepositView_post _ _ _ = _).
      split; [done|]. intros v Hv. by apply Hparties.
  - assert (accounts_bankaccount db1 !! u = accounts_bankaccount db2 !! u) as Hu
      by (apply Hparties; left).
    destruct (accounts_bankaccount db2 !! u) as [b|] eqn:Hu2.
    + rewrite !(WithdrawView_post_eq _ _ _ b) by done.
      case_decide; simpl; (split; [done|]); intros v Hv; [by apply Hparties|].
      apply list_elem_of_singleton in Hv as ->. by rewrite !lookup_insert_eq.
    + rewrite (no_account_unchanged (Withdraw now (mkRequest u (mkAmountData a)))
                 db1 Ha Hu : WithdrawView_post _ _ _ = _).
      rewrite (no_account_unchanged (Withdraw now (mkRequest u (mkAmountData a)))
                 db2 Ha Hu2 : WithdrawView_post _ _ _ = _).
      split; [done|]. intros v Hv. by apply Hparties.
  - assert (accounts_bankaccount db1 !! u = accounts_bankaccount db2 !! u) as Hu
      by (apply Hparties; left).
    assert (accounts_bankaccount db1 !! r = accounts_bankaccount db2 !! r) as Hr
      by (apply Hparties; right; left).
    destruct (accounts_bankaccount db2 !! u) as [sb|] eqn:Hu2.
    + rewrite !(TransferView_post_eq _ _ _ _ _ sb) by done.
      rewrite Husers, Hr.
      repeat case_decide; simpl; try (split; [done|]; intros v Hv; by apply Hparties).
      destruct (accounts_bankaccount db2 !! r) as [rb|] eqn:Hr2; simpl;
        (split; [done|]); intros v Hv; [|by apply Hparties].
      destruct (decide (v = r)) as [->|]; [by rewrite !lookup_insert_eq|].
      rewrite !(lookup_insert_ne _ r) by done.
      apply elem_of_cons in Hv as [->|Hv]; [by rewrite !lookup_insert_eq|].
      by apply list_elem_of_singleton in Hv.
    + rewrite (no_account_unchanged
                 (Transfer now1 now2 (mkRequest u (mkTransferData a r))) db1 Ha Hu
               : TransferView_post _ _ _ _ = _).
      rewrite (no_account_unchanged
                 (Transfer now1 now2 (mkRequest u (mkTransferData a r))) db2 Ha Hu2
               : TransferView_post _ _ _ _ = _).
      split; [done|]. intros v Hv. by apply Hparties.
Qed.

(** X12. Operations of disjoint parties do not interfere: when no party of
    one operation (its caller, and for a transfer the named recipient) is a
    party of the other, each gets the answer it would get alone, whichever
    runs first, and both orders leave the same users and the same table of
    balances. *)
Theorem disjoint_operations_commute (op1 op2 : Operation) (db : Database) :
  0 < operation_amount op1 → 0 < operation_amount op2 →
  (∀ v, v ∈ parties op1 → v ∉ parties op2) →
  let first1 := perform op2 (perform op1 db).2 in
  let first2 := perform op1 (perform op2 db).2 in
  first1.1 = (perform op2 db).1 ∧
  first2.1 = (perform op1 db).1 ∧
  auth_user first1.2 = auth_user first2.2 ∧
  accounts_bankaccount first1.2 = accounts_bankaccount first2.2.
Proof.
  intros Ha1 Ha2 Hdisj. cbv zeta.
  assert (∀ v, v ∈ parties op2 → v ∉ parties op1) as Hdisj'.
  { intros v H2 H1. by apply (Hdisj v). }
  destruct (perform_local op2 (perform op1 db).2 db Ha2) as [Hout2 Hacc2].
  { by apply perform_auth_user. }
  { intros v Hv. apply perform_frame; [done|]. by apply Hdisj'. }
  destruct (perform_local op1 (perform op2 db).2 db Ha1) as [Hout1 Hacc1].
  { by apply perform_auth_user. }
  { intros v Hv. apply perform_frame; [done|]. by apply Hdisj. }
  split_and!; [done|done| |].
  - by rewrite !perform_auth_user.
  - apply map_eq. intros v.
    destruct (decide (v ∈ parties op1)) as [H1|H1];
      [|destruct (decide (v ∈ parties op2)) as [H2|H2]].
    + rewrite perform_frame by (done || by apply Hdisj).
      by rewrite Hacc1.
    + rewrite Hacc2 by done. by rewrite (perform_frame op1) by done.
    + by rewrite !perform_frame by done.
Qed.

Lemma disjoint_operations_commute_witness :
  accounts_bankaccount
    (perform (Deposit 2 (mkRequest "bob" (mkAmountData 300)))
       (perform (Withdraw 1 (mkRequest "alice" (mkAmountData 100))) example_db).2).2
  = accounts_bankaccount
      (perform (Withdraw 1 (mkRequest "alice" (mkAmountData 100)))
         (perform (Deposit 2 (mkRequest "bob" (mkAmountData 300))) example_db).2).2.
Proof.
  assert (0 < operation_amount (Withdraw 1 (mkRequest "alice" (mkAmountData 100))))
    as Ha1 by (simpl; lia).
  assert (0 < operation_amount (Deposit 2 (mkRequest "bob" (mkAmountData 300))))
    as Ha2 by (simpl; lia).
  assert (∀ v, v ∈ parties (Withdraw 1 (mkRequest "alice" (mkAmountData 100))) →
               v ∉ parties (Deposit 2 (mkRequest "bob" (mkAmountData 300))))
    as Hdisj.
  { simpl. intros v Hv Hv'. apply list_elem_of_singleton in Hv as ->.
    apply list_elem_of_singleton in Hv'. discriminate. }
  exact (proj2 (proj2 (proj2
    (disjoint_operations_commute
       (Withdraw 1 (mkRequest "alice" (mkAmountData 100)))
       (Deposit 2 (mkRequest "bob" (mkAmountData 300))) example_db
       Ha1 Ha2 Hdisj)))).
Defined.

(** ** The history after a sequence of operations *)

Lemma clock_ahead_skip log ts rest :
  clock_ahead log (ts ++ rest) → clock_ahead log rest.
Proof.
  intros (Hlog & Hts & Hlt). split_and!; [done| |].
  - by apply StronglySorted_app_1_r in Hts.
  - intros t s Ht Hs. apply Hlt; [done|]. apply elem_of_app. by right.
Qed.

Lemma clock_ahead_record log t rest :
  clock_ahead log (created_at t :: rest) → clock_ahead (log ++ [t]) rest.
Proof.
  intros (Hlog & Hts & Hlt). apply StronglySorted_inv in Hts as [Hrest Hnow].
  rewrite Forall_forall in Hnow. split_and!; [|done|].
  - apply StronglySorted_app_2; [|done|repeat constructor].
    intros t1 t2 Ht1 Ht2. apply list_elem_of_singleton in Ht2 as ->.
    apply Hlt; [done|left].
  - intros t' s Ht' Hs. apply elem_of_app in Ht' as [Ht'|Ht'].
    + apply Hlt; [done|by right].
    + apply list_elem_of_singleton in Ht' as ->. by apply Hnow.
Qed.

Lemma perform_clock_ahead op db rest :
  0 < operation_amount op →
  clock_ahead (accounts_transaction db) (stamps op ++ rest) →
  clock_ahead (accounts_transaction (perform op db).2) rest.
Proof.
  intros Ha Hclock.
  pose proof (clock_ahead_skip _ _ _ Hclock) as Hskip.
  by_cases_of_view op db Ha; try done.
  - by apply clock_ahead_record.
  - by apply clock_ahead_record.
  - unfold transferred. simpl.
    rewrite (cons_middle _ (accounts_transaction db)), app_assoc.
    apply clock_ahead_record; simpl. by apply clock_ahead_record.
Qed.

Lemma perform_keeps_account op db u :
  0 < operation_amount op →
  is_Some (accounts_bankaccount db !! u) →
  is_Some (accounts_bankaccount (perform op db).2 !! u).
Proof.
  intros Ha Hu. by_cases_of_view op db Ha; try done;
    repeat (apply lookup_insert_is_Some';
            first [by left | right]); done.
Qed.

(** X13. The history tells the operations in reverse: when the log is
    chronological and the clock readings of a sequence of operations of
    positive amounts increase from one reading to the next, starting after
    the last record of the log, the log stays chronological, and the history
    of every account holder is then exactly the records of the account in the
    reverse of the order in which they were written. *)
Theorem history_reverses_operations (ops : list Operation) (db : Database)
    (u : string) :
  Forall (λ op, 0 < operation_amount op) ops →
  clock_ahead (accounts_transaction db) (all_stamps ops) →
  is_Some (balance_of db u) →
  let db' := perform_all ops db in
  chronological (accounts_transaction db') ∧
  TransactionHistoryView_get_queryset (mkRequest u ()) db'
  = (Return (reverse (records_of u db')), db').
Proof.
  unfold balance_of. intros Hops Hclock Hu. cbv zeta.
  assert (clock_ahead (accounts_transaction (perform_all ops db)) [] ∧
          is_Some (accounts_bankaccount (perform_all ops db) !! u))
    as [(Hlog & _) [b Hb]].
  { revert db Hclock Hu. unfold perform_all.
    induction Hops as [|op ops Hop _ IH]; intros db Hclock Hu; simpl in *;
      [done|].
    apply IH; [by apply perform_clock_ahead|by apply perform_keeps_account]. }
  split; [done|]. by apply (history_reverse_chronological _ b).
Qed.

Lemma history_reverses_operations_witness :
  TransactionHistoryView_get_queryset (mkRequest "alice" ())
    (perform_all example_ops example_db)
  = (Return (reverse (records_of "alice" (perform_all example_ops example_db))),
     perform_all example_ops example_db).
Proof.
  assert (Forall (λ op, 0 < operation_amount op) example_ops) as Hops.
  { unfold example_ops. repeat constructor. }
  assert (clock_ahead (accounts_transaction example_db) (all_stamps example_ops))
    as Hclock.
  { split_and!.
    - constructor.
    - unfold example_ops. simpl. repeat constructor; lia.
    - intros t s Ht. simpl in Ht. by apply elem_of_nil in Ht. }
  assert (is_Some (balance_of example_db "alice")) as Hu by (by eexists).
  exact (proj2 (history_reverses_operations example_ops example_db "alice"
                  Hops Hclock Hu)).
Defined.
